(** * linktree-scraper: a shallow embedding of [src/scrape.js]

    The file has three parts: the embedding of the script, the vocabulary
    of the properties (observations on recorded runs, scripted
    environments, example documents), and the properties themselves.
    The embedding follows the source file:

    - [JsString]: the string primitives the script uses ([trim], [split],
      [includes], regular-expression helpers, number printing);
    - [parseCookies] (lines 34-54);
    - the effect monad [M] in which the asynchronous code runs, with
      [retry] (lines 14-24);
    - the browser world: [sendToWebhook] (lines 57-79), the scroll loop
      (lines 148-158) and [main] (lines 82-213);
    - [Dom]: documents, selectors and the in-page extractor (lines 162-194).

    JavaScript strings are modelled by [string]; a character stands for one
    code unit in the range 0-255.  JavaScript numbers that the script
    handles are integers and are modelled by [Z]; the result of [parseInt]
    is a [number], exact below 2^53.

    Line 174 of the source, the computation of [clicks], is not
    well-formed JavaScript: the parenthesis opened by [parseInt(] is never
    closed, so the file as it stands does not parse.  Everything else is
    embedded as written; for line 174 the model restores the parenthesis
    (see [Dom.clicksOf], where the choice and the other possible
    placements are laid out). *)

From Stdlib Require Import ZArith List String Ascii Bool Lia.
From Stdlib Require Import Numbers.DecimalString.
Import ListNotations.

Local Open Scope string_scope.
Local Open Scope Z_scope.
Local Open Scope list_scope.

(* ================================================================= *)
(** ** JavaScript strings *)

Module JsString.

(** [WhiteSpace] and [LineTerminator] code units below 256: TAB, LF, VT,
    FF, CR, SP and NBSP.  This is the set removed by [String.prototype.trim]
    and matched by the class [\s]. *)
Definition isWhiteSpace (c : ascii) : bool :=
  let n := nat_of_ascii c in
  ((9 <=? n)%nat && (n <=? 13)%nat) || (n =? 32)%nat || (n =? 160)%nat.

(** The class [\d] (no unicode flag): the ten ASCII digits. *)
Definition isDigit (c : ascii) : bool :=
  let n := nat_of_ascii c in (48 <=? n)%nat && (n <=? 57)%nat.

Definition isEmpty (s : string) : bool :=
  match s with EmptyString => true | String _ _ => false end.

Fixpoint trimStart (s : string) : string :=
  match s with
  | EmptyString => EmptyString
  | String c r => if isWhiteSpace c then trimStart r else s
  end.

Fixpoint trimEnd (s : string) : string :=
  match s with
  | EmptyString => EmptyString
  | String c r =>
      let r' := trimEnd r in
      if isWhiteSpace c && isEmpty r' then EmptyString else String c r'
  end.

(** [s.trim()] *)
Definition trim (s : string) : string := trimEnd (trimStart s).

(** [s.split(sep)] for a one-character separator: always at least one
    piece, [n] separators give [n + 1] pieces. *)
Fixpoint split (sep : ascii) (s : string) : list string :=
  match s with
  | EmptyString => [EmptyString]
  | String c r =>
      if Ascii.eqb c sep then EmptyString :: split sep r
      else match split sep r with
           | piece :: pieces => String c piece :: pieces
           | [] => [String c EmptyString]
           end
  end.

(** [s.startsWith(p)] *)
Fixpoint startsWith (p s : string) : bool :=
  match p, s with
  | EmptyString, _ => true
  | String a p', String b s' => Ascii.eqb a b && startsWith p' s'
  | String _ _, EmptyString => false
  end.

(** [s.includes(p)] *)
Fixpoint includes (p s : string) : bool :=
  startsWith p s ||
  match s with
  | EmptyString => false
  | String _ s' => includes p s'
  end.

Fixpoint dropWhile (f : ascii -> bool) (s : string) : string :=
  match s with
  | EmptyString => EmptyString
  | String c r => if f c then dropWhile f r else s
  end.

Fixpoint takeWhile (f : ascii -> bool) (s : string) : string :=
  match s with
  | EmptyString => EmptyString
  | String c r => if f c then String c (takeWhile f r) else EmptyString
  end.

Fixpoint forallb (f : ascii -> bool) (s : string) : bool :=
  match s with
  | EmptyString => true
  | String c r => f c && forallb f r
  end.

Fixpoint existsb (f : ascii -> bool) (s : string) : bool :=
  match s with
  | EmptyString => false
  | String c r => f c || existsb f r
  end.

(** A string literal of the script that holds double quotes:
    [quoted "email"] is the five letters between two quote characters. *)
Definition quoted (s : string) : string :=
  String (ascii_of_nat 34) (s ++ String (ascii_of_nat 34) EmptyString).

(** Template-literal printing of an integer, [`${n}`]. *)
Definition ofNumber (n : Z) : string := NilEmpty.string_of_int (Z.to_int n).

End JsString.

(** JavaScript truthiness of a value that is a string or [undefined]. *)
Definition truthy (v : option string) : bool :=
  match v with
  | Some s => negb (JsString.isEmpty s)
  | None => false
  end.

(* ================================================================= *)
(** ** parseCookies (lines 34-54) *)

Record Cookie := mkCookie {
  name : string;
  value : string;
  domain : string;
  path : string;
  httpOnly : bool;
  secure : bool;
  sameSite : string
}.

(** The object literal pushed at lines 41-49. *)
Definition linktreeCookie (name value : string) : Cookie :=
  mkCookie (JsString.trim name) (JsString.trim value)
           ".linktr.ee" "/" false true "Lax".

(** One turn of the [for (const pair of pairs)] loop.  The destructuring
    [const [name, value] = pair.trim().split('=')] binds the pieces of
    index 0 and 1 of the array; a missing piece is [undefined], and pieces
    of index 2 and above are not bound to anything. *)
Definition parseCookies_step (cookies : list Cookie) (pair : string)
  : list Cookie :=
  let parts := JsString.split "=" (JsString.trim pair) in
  let name := nth_error parts 0 in
  let value := nth_error parts 1 in
  if truthy name && truthy value then
    match name, value with
    | Some n, Some v => cookies ++ [linktreeCookie n v]
    | _, _ => cookies
    end
  else cookies.

Definition parseCookies (cookieString : string) : list Cookie :=
  let pairs := JsString.split ";" cookieString in
  fold_left parseCookies_step pairs [].

(** The parser as the specification words it: every segment is cut at its
    first [=] only, so the value keeps any further [=]. *)
Fixpoint splitFirst (sep : ascii) (s : string) : string * option string :=
  match s with
  | EmptyString => (EmptyString, None)
  | String c r =>
      if Ascii.eqb c sep then (EmptyString, Some r)
      else let '(before, after) := splitFirst sep r in (String c before, after)
  end.

Definition parseCookies_spec_step (cookies : list Cookie) (pair : string)
  : list Cookie :=
  let '(n, value) := splitFirst "=" (JsString.trim pair) in
  if truthy (Some n) && truthy value then
    match value with
    | Some v => cookies ++ [linktreeCookie n v]
    | None => cookies
    end
  else cookies.

Definition parseCookies_spec (cookieString : string) : list Cookie :=
  fold_left parseCookies_spec_step (JsString.split ";" cookieString) [].


(* ================================================================= *)
(** ** Thrown values and the effect monad *)

(** A thrown value: an [Error] object with its [name] and [message], as
    are the values this script throws and the rejections of the libraries
    it calls.  (A rejection with [null] or [undefined], on which reading
    [error.message] would itself throw, is outside the model.) *)
Record exn := mkExn { errorName : string; message : string }.

(** [new Error(msg)] *)
Definition Error (msg : string) : exn := mkExn "Error" msg.

(** An argument of [console.log] / [console.error]. *)
Inductive logarg :=
| LStr (s : string)
| LErr (e : exn).

(** The settlement of one asynchronous computation started in world [w]:
    it returns, it throws, or it never settles ([Pending], which only the
    unbounded [while] loop of the scroll stage can produce). *)
Inductive result (W A : Type) :=
| Returned (a : A) (w : W)
| Thrown (e : exn) (w : W)
| Pending.

Arguments Returned {W A} a w.
Arguments Thrown {W A} e w.
Arguments Pending {W A}.

Definition M (W A : Type) : Type := W -> result W A.

Section Monad.
Context {W : Type}.

Definition ret {A} (a : A) : M W A := fun w => Returned a w.

Definition throw {A} (e : exn) : M W A := fun w => Thrown e w.

Definition bind {A B} (c : M W A) (k : A -> M W B) : M W B :=
  fun w =>
    match c w with
    | Returned a w' => k a w'
    | Thrown e w' => Thrown e w'
    | Pending => Pending
    end.

(** [try { body } catch (error) { handler }] *)
Definition tryCatch {A} (body : M W A) (handler : exn -> M W A) : M W A :=
  fun w =>
    match body w with
    | Returned a w' => Returned a w'
    | Thrown e w' => handler e w'
    | Pending => Pending
    end.

(** [try { body } finally { cleanup }]: the cleanup runs on both exits
    of the body, and an error of the cleanup replaces the body's
    settlement. *)
Definition tryFinally {A} (body : M W A) (cleanup : M W unit) : M W A :=
  fun w =>
    match body w with
    | Returned a w' =>
        match cleanup w' with
        | Returned _ w'' => Returned a w''
        | Thrown e w'' => Thrown e w''
        | Pending => Pending
        end
    | Thrown e w' =>
        match cleanup w' with
        | Returned _ w'' => Thrown e w''
        | Thrown e' w'' => Thrown e' w''
        | Pending => Pending
        end
    | Pending => Pending
    end.

(** An effect that cannot fail. *)
Definition effect (f : W -> W) : M W unit := fun w => Returned tt (f w).
End Monad.

Declare Scope js_scope.
Delimit Scope js_scope with js.
Notation "x <- c ;; k" := (bind c (fun x => k))
  (at level 61, c at next level, right associativity) : js_scope.
Notation "c ;; k" := (bind c (fun _ => k))
  (at level 61, right associativity) : js_scope.
Local Open Scope js_scope.

(** What [retry] needs from its host: the console and the timer. *)
Class Runtime (W : Type) := {
  console_log : list logarg -> W -> W;
  setTimeout : Z -> W -> W
}.

(* ================================================================= *)
(** ** retry (lines 14-24) *)

Section Retry.
Context {W : Type} {RT : Runtime W} {A : Type}.

(** The [for (let i = 0; i < maxRetries; i++)] loop from index [i] on.
    [None] is the [undefined] the function returns when the loop ends
    without entering its body. *)
Fixpoint retry_loop (fn : M W A) (maxRetries delay : Z) (fuel : nat)
         (i : Z) : M W (option A) :=
  match fuel with
  | O => fun _ => Pending
  | S fuel' =>
      if i <? maxRetries then
        tryCatch
          (a <- fn ;; ret (Some a))
          (fun error =>
             effect (console_log
                       [LStr ("Attempt " ++ JsString.ofNumber (i + 1) ++ " failed:");
                        LStr (message error)]) ;;
             if i =? maxRetries - 1 then throw error
             else
               effect (setTimeout (delay * (i + 1))) ;;
               retry_loop fn maxRetries delay fuel' (i + 1))
      else ret None
  end.

(** [retry(fn, maxRetries, delay)].  The loop runs its body at most
    [maxRetries] times, so the fuel below is never exhausted
    (lemma [retry_run]). *)
Definition retry (fn : M W A) (maxRetries delay : Z) : M W (option A) :=
  retry_loop fn maxRetries delay (S (Z.to_nat maxRetries)) 0.

(** [retry(fn)] with the default parameters of line 14. *)
Definition retry_default (fn : M W A) : M W (option A) := retry fn 3 1000.
End Retry.

(** *** A test host for [retry]

    The operation under test owns a private state of type [S]; the host
    records every invocation of the operation with the error it raised (if
    any), every console line and every timer wait, in order. *)
Inductive probe_event :=
| Invoked (failure : option exn)
| Logged (args : list logarg)
| Slept (ms : Z).

Record probe (S : Type) := mkProbe {
  opState : S;
  events : list probe_event
}.
Arguments mkProbe {S} opState events.
Arguments opState {S} p.
Arguments events {S} p.

#[export] Instance probe_runtime (S : Type) : Runtime (probe S) := {
  console_log args w := mkProbe (opState w) (events w ++ [Logged args]);
  setTimeout ms w := mkProbe (opState w) (events w ++ [Slept ms])
}.

(** An operation [fn : S -> (A + exn) * S] run on the test host. *)
Definition probed {S A : Type} (fn : S -> (A + exn) * S) : M (probe S) A :=
  fun w =>
    match fn (opState w) with
    | (inl a, s') => Returned a (mkProbe s' (events w ++ [Invoked None]))
    | (inr e, s') => Thrown e (mkProbe s' (events w ++ [Invoked (Some e)]))
    end.

(** The errors raised by the invocations, oldest first. *)
Fixpoint failures (evs : list probe_event) : list exn :=
  match evs with
  | [] => []
  | Invoked (Some e) :: evs' => e :: failures evs'
  | _ :: evs' => failures evs'
  end.

(** The timer waits, oldest first. *)
Fixpoint delays (evs : list probe_event) : list Z :=
  match evs with
  | [] => []
  | Slept ms :: evs' => ms :: delays evs'
  | _ :: evs' => delays evs'
  end.

(** The timer waits that lie between invocation number [k] (counted from
    1) and the next invocation, or the end of the run. *)
Fixpoint delaysAfter (k : nat) (evs : list probe_event) : list Z :=
  match evs with
  | [] => []
  | Invoked _ :: evs' =>
      match k with
      | O => []
      | S k' => delaysAfter k' evs'
      end
  | Slept ms :: evs' =>
      match k with
      | O => ms :: delaysAfter k evs'
      | S _ => delaysAfter k evs'
      end
  | Logged _ :: evs' => delaysAfter k evs'
  end.

(* ================================================================= *)
(** ** Documents, selectors and the in-page extractor (lines 162-194) *)

(** A JavaScript value as the extractor sees it in a DOM property. *)
Inductive jsval :=
| JsUndefined
| JsString (s : string)
| JsNumber (n : Z)
| JsObject.

(** [ToBoolean] *)
Definition toBoolean (v : jsval) : bool :=
  match v with
  | JsUndefined => false
  | JsString s => negb (JsString.isEmpty s)
  | JsNumber n => negb (n =? 0)
  | JsObject => true
  end.

(** [a || b] *)
Definition jsOr (a b : jsval) : jsval := if toBoolean a then a else b.

(** The number value [parseInt] returns.  A double represents every
    integer below 2^53 exactly, and there [parseInt] returns the integer
    itself: [Exactly].  From 2^53 on the result is the double that
    JavaScript rounds the integer to (or [Infinity], for long digit
    runs); the model does not say which double that is: [Rounded]. *)
Inductive number :=
| Exactly (z : Z)
| Rounded.

Coercion Exactly : Z >-> number.

Module Dom.

#[local] Set Warnings "-register-all".

(** A node of the document tree.  An element carries its local name, its
    attributes and the two IDL properties the extractor reads, [value] and
    [href], as the browser exposes them ([JsUndefined] on elements that do
    not have the property). *)
Inductive node :=
| TextNode (data : string)
| ElementNode (tagName : string) (attributes : list (string * string))
              (value href : jsval) (childNodes : list node).

Definition isElement (n : node) : bool :=
  match n with ElementNode _ _ _ _ _ => true | TextNode _ => false end.

Definition childNodesOf (n : node) : list node :=
  match n with ElementNode _ _ _ _ cs => cs | TextNode _ => [] end.

Definition valueOf (n : node) : jsval :=
  match n with ElementNode _ _ v _ _ => v | TextNode _ => JsUndefined end.

Definition hrefOf (n : node) : jsval :=
  match n with ElementNode _ _ _ h _ => h | TextNode _ => JsUndefined end.

(** [el.getAttribute(a)] *)
Fixpoint lookupAttribute (a : string) (attrs : list (string * string))
  : option string :=
  match attrs with
  | [] => None
  | (k, v) :: rest => if String.eqb k a then Some v else lookupAttribute a rest
  end.

Definition getAttribute (a : string) (n : node) : option string :=
  match n with
  | ElementNode _ attrs _ _ _ => lookupAttribute a attrs
  | TextNode _ => None
  end.

(** [node.textContent]: the text of all text descendants, in order. *)
Fixpoint textContent (n : node) : string :=
  match n with
  | TextNode d => d
  | ElementNode _ _ _ _ cs => String.concat "" (map textContent cs)
  end.

(** The element descendants of a node in document (pre-)order, the node
    itself excluded. *)
Fixpoint descendants (n : node) : list node :=
  match n with
  | TextNode _ => []
  | ElementNode _ _ _ _ cs =>
      flat_map (fun c => if isElement c then c :: descendants c else []) cs
  end.

(** All elements of a document whose root element is [root]. *)
Definition allElements (root : node) : list node :=
  if isElement root then root :: descendants root else [].

(** *** Selectors *)

Inductive simple_selector :=
| Universal                              (* [*]        *)
| TypeSel (tag : string)                 (* [h3]       *)
| ClassSel (cls : string)                (* [.c]       *)
| AttrEquals (attr val : string)         (* [[a="v"]]  *)
| AttrContains (attr val : string)       (* [[a*="v"]] *)
| AttrPrefix (attr val : string).        (* [[a^="v"]] *)

(** A compound selector is a conjunction of simple selectors; a selector
    list (the comma) is a disjunction of compound selectors. *)
Definition compound_selector := list simple_selector.
Definition selector_list := list compound_selector.

(** ASCII whitespace, the separator of the tokens of a [class]
    attribute: TAB, LF, FF, CR and SP. *)
Definition isAsciiWhitespace (c : ascii) : bool :=
  let n := nat_of_ascii c in
  (n =? 9)%nat || (n =? 10)%nat || (n =? 12)%nat || (n =? 13)%nat
  || (n =? 32)%nat.

(** The whitespace-separated tokens of a [class] attribute. *)
Fixpoint tokens (s : string) : list string :=
  match s with
  | EmptyString => []
  | String c r =>
      if isAsciiWhitespace c then tokens r
      else
        match r with
        | EmptyString => [String c EmptyString]
        | String c' _ =>
            if isAsciiWhitespace c' then String c EmptyString :: tokens r
            else match tokens r with
                 | t :: ts => String c t :: ts
                 | [] => [String c EmptyString]
                 end
        end
  end.

Definition matchesSimple (sel : simple_selector) (n : node) : bool :=
  match n with
  | TextNode _ => false
  | ElementNode tag attrs _ _ _ =>
      match sel with
      | Universal => true
      | TypeSel t => String.eqb tag t
      | ClassSel c =>
          match lookupAttribute "class" attrs with
          | Some v => List.existsb (String.eqb c) (tokens v)
          | None => false
          end
      | AttrEquals a v =>
          match lookupAttribute a attrs with
          | Some x => String.eqb x v
          | None => false
          end
      | AttrContains a v =>
          match lookupAttribute a attrs with
          | Some x => negb (JsString.isEmpty v) && JsString.includes v x
          | None => false
          end
      | AttrPrefix a v =>
          match lookupAttribute a attrs with
          | Some x => negb (JsString.isEmpty v) && JsString.startsWith v x
          | None => false
          end
      end
  end.

Definition matchesCompound (sel : compound_selector) (n : node) : bool :=
  List.forallb (fun s => matchesSimple s n) sel.

(** [el.matches(selectors)] *)
Definition matches (sels : selector_list) (n : node) : bool :=
  List.existsb (fun s => matchesCompound s n) sels.

(** [el.querySelectorAll(selectors)]: every descendant element that
    matches at least one selector of the list, in document order. *)
Definition querySelectorAll (sels : selector_list) (n : node) : list node :=
  filter (matches sels) (descendants n).

(** [el.querySelector(selectors)]: the first of them, or [null]. *)
Definition querySelector (sels : selector_list) (n : node) : option node :=
  find (matches sels) (descendants n).

(** [document.querySelectorAll(selectors)] *)
Definition documentQuerySelectorAll (sels : selector_list) (root : node)
  : list node :=
  filter (matches sels) (allElements root).

(** *** Regular expressions of the extractor *)

(** [/\d+\s+clicks?/] tried at the start of [s].  The three parts of the
    pattern begin with characters of disjoint classes, so the greedy match
    is the only candidate: a digit, the rest of the digit run, a whitespace
    run of at least one character, then [click]; the optional [s] never
    makes the test fail. *)
Definition clicksPatternHere (s : string) : bool :=
  match s with
  | String c _ =>
      JsString.isDigit c &&
      match JsString.dropWhile JsString.isDigit s with
      | String w r =>
          JsString.isWhiteSpace w &&
          JsString.startsWith "click"
            (JsString.dropWhile JsString.isWhiteSpace (String w r))
      | EmptyString => false
      end
  | EmptyString => false
  end.

(** [/\d+\s+clicks?/.test(s)]: the pattern matches at some position. *)
Fixpoint clicksPatternTest (s : string) : bool :=
  clicksPatternHere s ||
  match s with
  | EmptyString => false
  | String _ r => clicksPatternTest r
  end.

(** [s.match(/(\d+)/)?.[1]]: the leftmost maximal run of digits, or
    [undefined] when the text has no digit. *)
Definition firstDigits (s : string) : option string :=
  match JsString.dropWhile (fun c => negb (JsString.isDigit c)) s with
  | EmptyString => None
  | String c r => Some (JsString.takeWhile JsString.isDigit (String c r))
  end.

(** The mathematical integer that a string of decimal digits denotes
    ([mathInt] in the definition of [parseInt]). *)
Definition mathInt (digits : string) : Z :=
  let step acc c := 10 * acc + (Z.of_nat (nat_of_ascii c) - 48) in
  (fix go (s : string) (acc : Z) : Z :=
     match s with
     | EmptyString => acc
     | String c r => go r (step acc c)
     end) digits 0.

(** [parseInt] on a non-empty string of decimal digits, the only strings
    the capture group can produce: the number value of [mathInt], which
    is [mathInt] itself below 2^53 and a rounded double from there on. *)
Definition parseInt (digits : string) : number :=
  let value := mathInt digits in
  if value <? 2 ^ 53 then Exactly value else Rounded.

(** *** The extractor *)

Record LinkRecord := mkLink {
  title : jsval;
  url : jsval;
  clicks : number
}.

(** Line 163: one selector list, three alternatives. *)
Definition cardSelectors : selector_list :=
  [ [AttrEquals "data-testid" "link-card"];
    [ClassSel "link-card"];
    [AttrContains "class" "link-card"] ].

(** Line 169 *)
Definition clickSelectors : selector_list :=
  [ [AttrContains "class" "click"];
    [AttrContains "class" "Click"];
    [AttrContains "data-testid" "click"] ].

(** Line 177 *)
Definition titleSelectors : selector_list :=
  [ [TypeSel "input"; AttrEquals "aria-label" "Title"];
    [AttrEquals "data-testid" "link-title"];
    [TypeSel "h3"];
    [TypeSel "textarea"] ].

(** Line 178 *)
Definition titleClassSelectors : selector_list :=
  [ [AttrContains "class" "title"]; [AttrContains "class" "Title"] ].

(** Line 182 *)
Definition urlSelectors : selector_list :=
  [ [TypeSel "a"; AttrPrefix "href" "http"] ].

(** [x || y] on two element-or-null values. *)
Definition orElse (x y : option node) : option node :=
  match x with Some _ => x | None => y end.

(** Lines 169-172 *)
Definition clickElementOf (card : node) : option node :=
  orElse (querySelector clickSelectors card)
         (find (fun el => negb (JsString.isEmpty (textContent el)) &&
                          clicksPatternTest (textContent el))
               (querySelectorAll [[Universal]] card)).

(** Line 174, REPAIRED.  The source line is

      [const clicks = clickElement ? parseInt(clickElement.textContent.match(/(\d+)/)?.[1] || 0 : 0;]

    in which [parseInt(] is never closed: the line, and with it the whole
    file, is a syntax error, and the script as written computes no click
    count at all.  The model restores the missing parenthesis after
    [|| 0],

      [clickElement ? parseInt(clickElement.textContent.match(/(\d+)/)?.[1] || 0) : 0]

    which is the reading embedded here (closing it after [?.[1]] instead
    gives the same values).  This is a choice of the model, not something
    the source decides.  The other placements that make the line parse
    behave differently: closed right after the [match(...)] call, the
    expression is [parseInt(...)?.[1] || 0], the index of a number, which
    is 0 for every card ([clicksOfParenAfterMatch] below); closed after
    [clickElement.textContent] or after [clickElement], the call of
    [.match] on a number throws a [TypeError], which the [catch] of line
    188 turns into a skipped card. *)
Definition clicksOf (card : node) : number :=
  match clickElementOf card with
  | Some el =>
      match firstDigits (textContent el) with
      | Some digits => parseInt digits
      | None => parseInt "0"
      end
  | None => Exactly 0
  end.


(** Lines 177-179 *)
Definition titleOf (card : node) : jsval :=
  let titleElement :=
    orElse (querySelector titleSelectors card)
           (querySelector titleClassSelectors card) in
  match titleElement with
  | Some el =>
      jsOr (jsOr (valueOf el) (JsString (JsString.trim (textContent el))))
           (JsString "")
  | None => JsString ""
  end.

(** Lines 182-183 *)
Definition urlOf (card : node) : jsval :=
  match querySelector urlSelectors card with
  | Some el => jsOr (hrefOf el) (JsString "")
  | None => JsString ""
  end.

(** The body of the [for (const card of cards)] loop, with line 174
    repaired as in [clicksOf]: the [clicks] field of a record is the
    value of the repaired line.  With that repair nothing in the [try]
    block can throw on a well-formed document, so the [catch] branch is
    not reachable in the model. *)
Definition extractCard (links : list LinkRecord) (card : node)
  : list LinkRecord :=
  let clicks := clicksOf card in
  let title := titleOf card in
  let url := urlOf card in
  if toBoolean title && toBoolean url
  then links ++ [mkLink title url clicks]
  else links.

(** The function passed to [page.evaluate] at line 162, applied to the
    document whose root element is [root]. *)
Definition extract (root : node) : list LinkRecord :=
  let cards := documentQuerySelectorAll cardSelectors root in
  fold_left extractCard cards [].

(** Card selection as the specification words it: the selectors are tried
    in order and the first one with any match supplies all the cards. *)
Fixpoint firstMatchingSelector (sels : selector_list) (root : node)
  : list node :=
  match sels with
  | [] => []
  | sel :: rest =>
      match documentQuerySelectorAll [sel] root with
      | [] => firstMatchingSelector rest root
      | found => found
      end
  end.

End Dom.


(* ================================================================= *)
(** ** The browser world *)

(** Environment variables read at lines 5-8; [None] is [undefined]. *)
Record Config := mkConfig {
  LINKTREE_EMAIL : option string;
  LINKTREE_PASSWORD : option string;
  LT_COOKIE : option string;
  WEBHOOK_URL : option string
}.

(** The object built at lines 199-202. *)
Record WebhookData := mkWebhookData {
  dateISO : string;
  items : list Dom.LinkRecord
}.

(** Every call the script makes on the outside world.  The request body
    of [Fetch] is kept as the value handed to [JSON.stringify]. *)
Inductive action :=
| ConsoleLog (args : list logarg)
| ConsoleError (args : list logarg)
| SetTimeout (ms : Z)
| GetJSTDate
| Launch
| NewContext
| NewPage
| AddCookies (cookies : list Cookie)
| Goto (url : string)
| PageUrl
| Fill (selector : string) (text : option string)
| Click (selector : string)
| WaitForURL (pattern : string) (timeout : Z)
| EvalScrollHeight
| EvalScrollTo
| WaitForTimeout (ms : Z)
| EvalExtract
| Fetch (url : option string) (method contentType : string) (body : WebhookData)
| ResponseText
| BrowserClose.

Definition history := list action.

(** How an awaited external call settles. *)
Inductive outcome (A : Type) :=
| Fulfilled (a : A)
| Rejected (e : exn).
Arguments Fulfilled {A} a.
Arguments Rejected {A} e.

(** A [fetch] response: its status and what [response.text()] settles to. *)
Record Response := mkResponse {
  status : Z;
  text : outcome string
}.

(** [response.ok] *)
Definition ok (r : Response) : bool := (200 <=? status r) && (status r <=? 299).

(** The outside world: for every call, how it settles given everything
    that happened before it. *)
Record Environment := mkEnvironment {
  settle : action -> history -> outcome unit;
  currentUrl : history -> string;
  scrollHeight : history -> outcome Z;
  document : history -> outcome Dom.node;
  respond : action -> history -> outcome Response;
  today : history -> string
}.

#[export] Instance browser_runtime : Runtime history := {
  console_log args h := h ++ [ConsoleLog args];
  setTimeout ms h := h ++ [SetTimeout ms]
}.

Definition console_error (args : list logarg) : M history unit :=
  effect (fun h => h ++ [ConsoleError args]).

Section Script.
Variable env : Environment.
Variable cfg : Config.

(** An awaited call: it is recorded, then it returns or throws. *)
Definition await {A} (act : action) (oracle : history -> outcome A)
  : M history A :=
  fun h =>
    match oracle h with
    | Fulfilled a => Returned a (h ++ [act])
    | Rejected e => Thrown e (h ++ [act])
    end.

(** A call that settles with no value. *)
Definition perform (act : action) : M history unit :=
  await act (settle env act).

(** A synchronous call that cannot throw. *)
Definition observe {A} (act : action) (oracle : history -> A) : M history A :=
  fun h => Returned (oracle h) (h ++ [act]).

(** *** getJSTDate (lines 27-31) *)
Definition getJSTDate : M history string := observe GetJSTDate (today env).

(** *** sendToWebhook (lines 57-79) *)
Definition sendToWebhook (data : WebhookData) : M history string :=
  tryCatch
    (let request :=
       Fetch (WEBHOOK_URL cfg) "POST" "application/json" data in
     response <- await request (respond env request) ;;
     responseText <- await ResponseText (fun _ => text response) ;;
     effect (console_log
               [LStr ("Webhook status: " ++ JsString.ofNumber (status response)
                      ++ " " ++ responseText)]) ;;
     if negb (ok response) then
       throw (Error ("Webhook failed: " ++ JsString.ofNumber (status response)
                     ++ " " ++ responseText))
     else ret responseText)
    (fun error =>
       console_error [LStr "Webhook error:"; LErr error] ;;
       throw error).

(** *** The login sequence (lines 122-128 and 137-143) *)
Definition login : M history unit :=
  perform (Goto "https://linktr.ee/login") ;;
  perform (Fill ("input[type=" ++ JsString.quoted "email" ++ "]")
                (LINKTREE_EMAIL cfg)) ;;
  perform (Fill ("input[type=" ++ JsString.quoted "password" ++ "]")
                (LINKTREE_PASSWORD cfg)) ;;
  perform (Click ("button[type=" ++ JsString.quoted "submit" ++ "]")) ;;
  perform (WaitForURL "**/admin**" 10000).

(** [!LINKTREE_EMAIL || !LINKTREE_PASSWORD] *)
Definition credentialsMissing : bool :=
  negb (truthy (LINKTREE_EMAIL cfg)) || negb (truthy (LINKTREE_PASSWORD cfg)).

(** *** Cookie authentication: the inner [try] block (lines 104-114) *)
Definition cookieAttempt (cookie : string) : M history unit :=
  let cookies := parseCookies cookie in
  perform (AddCookies cookies) ;;
  perform (Goto "https://linktr.ee/admin/links") ;;
  currentUrl <- observe PageUrl (currentUrl env) ;;
  (if JsString.includes "/login" currentUrl
   then throw (Error "Cookie authentication failed - redirected to login")
   else ret tt) ;;
  effect (console_log [LStr "Cookie authentication successful"]).

(** The [catch] block of lines 115-129. *)
Definition cookieFallback (error : exn) : M history unit :=
  effect (console_log
            [LStr "Cookie authentication failed, falling back to login:";
             LStr (message error)]) ;;
  if credentialsMissing then
    throw (Error "Cookie authentication failed and no login credentials available")
  else
    retry_default login ;; ret tt.

(** *** Authentication (lines 101-144) *)
Definition authenticate : M history unit :=
  if truthy (LT_COOKIE cfg) then
    effect (console_log [LStr "Using cookie authentication..."]) ;;
    match LT_COOKIE cfg with
    | Some cookie => tryCatch (cookieAttempt cookie) cookieFallback
    | None => ret tt
    end
  else
    effect (console_log [LStr "Using email/password authentication..."]) ;;
    if credentialsMissing then
      throw (Error "No authentication method available")
    else
      retry_default login ;; ret tt.

(** *** The scroll loop (lines 149-157) *)
Fixpoint scrollLoop (fuel : nat) (previousHeight currentHeight : Z)
  : M history unit :=
  match fuel with
  | O => fun _ => Pending
  | S fuel' =>
      if currentHeight >? previousHeight then
        perform EvalScrollTo ;;
        perform (WaitForTimeout 2000) ;;
        let previousHeight := currentHeight in
        currentHeight <- await EvalScrollHeight (scrollHeight env) ;;
        scrollLoop fuel' previousHeight currentHeight
      else ret tt
  end.

(** The function handed to [retry] at line 148. *)
Definition loadAll (fuel : nat) : M history unit :=
  let previousHeight := 0 in
  currentHeight <- await EvalScrollHeight (scrollHeight env) ;;
  scrollLoop fuel previousHeight currentHeight.

(** *** The body of the outer [try] block (lines 100-205) *)
Definition scrape (fuel : nat) (today : string) : M history unit :=
  authenticate ;;
  effect (console_log [LStr "Loading all links..."]) ;;
  retry_default (loadAll fuel) ;;
  effect (console_log [LStr "Extracting link data..."]) ;;
  root <- await EvalExtract (document env) ;;
  let linkData := Dom.extract root in
  effect (console_log
            [LStr ("Extracted "
                   ++ JsString.ofNumber (Z.of_nat (List.length linkData))
                   ++ " links")]) ;;
  let webhookData := mkWebhookData today linkData in
  sendToWebhook webhookData ;;
  effect (console_log [LStr "Scraping completed successfully"]).

(** *** main (lines 82-213)

    [fuel] bounds the number of turns of the scroll loop; [Pending] is
    the run that exhausts it. *)
Definition main (fuel : nat) : M history unit :=
  effect (console_log [LStr "Starting Linktree insights scraper..."]) ;;
  if negb (truthy (WEBHOOK_URL cfg)) then
    throw (Error "Missing required environment variable: WEBHOOK_URL")
  else
    today <- getJSTDate ;;
    effect (console_log [LStr ("Today: " ++ today)]) ;;
    perform Launch ;;
    perform NewContext ;;
    perform NewPage ;;
    tryFinally
      (tryCatch (scrape fuel today)
         (fun error =>
            console_error [LStr "Scraping failed:"; LErr error] ;;
            throw error))
      (perform BrowserClose).
End Script.

(* ================================================================= *)
(** * Vocabulary of the properties

    Observations on recorded runs, scripted environments and the example
    inputs the statements below refer to. *)

Import Dom.

(* ----------------------------------------------------------------- *)
(** ** Reading a run of [retry] on the test host *)

(** The console line of line 19 for attempt number [k]. *)
Definition attemptLog (k : Z) (e : exn) : probe_event :=
  Logged [LStr ("Attempt " ++ JsString.ofNumber k ++ " failed:");
          LStr (message e)].

(** The events of consecutive failed attempts that are followed by another
    attempt, the first of them being attempt number [k]. *)
Fixpoint failedRounds (delay k : Z) (es : list exn) : list probe_event :=
  match es with
  | [] => []
  | e :: es' =>
      Invoked (Some e) :: attemptLog k e :: Slept (delay * k)
        :: failedRounds delay (k + 1) es'
  end.

(** The outcomes of the invocations, oldest first. *)
Fixpoint invocations (evs : list probe_event) : list (option exn) :=
  match evs with
  | [] => []
  | Invoked r :: evs' => r :: invocations evs'
  | _ :: evs' => invocations evs'
  end.

(** The events recorded when a run settles. *)
Definition finalEvents {St A} (r : result (probe St) A) : list probe_event :=
  match r with
  | Returned _ w => events w
  | Thrown _ w => events w
  | Pending => []
  end.

(** The state of the operation after each invocation. *)
Definition stateAfter {St A} (fn : St -> (A + exn) * St) (k : nat) (s : St) : St :=
  Nat.iter k (fun s => snd (fn s)) s.

(** The operation fails whatever its state. *)
Definition alwaysFails {St A} (fn : St -> (A + exn) * St) : Prop :=
  forall s, exists e, fst (fn s) = inr e.

(** The three ways a run of the [retry] loop from index [i] can end on the
    test host: a success after some failed rounds, a last attempt that
    fails, or a loop whose body is never entered. *)
Inductive loopRun {St A : Type} (fn : St -> (A + exn) * St)
          (maxRetries delay : Z) (i : Z) (w : probe St)
  : result (probe St) (option A) -> Prop :=
| run_success es a :
    i + Z.of_nat (List.length es) < maxRetries ->
    fst (fn (stateAfter fn (List.length es) (opState w))) = inl a ->
    loopRun fn maxRetries delay i w
      (Returned (Some a)
         (mkProbe (stateAfter fn (S (List.length es)) (opState w))
            (events w ++ failedRounds delay (i + 1) es ++ [Invoked None])))
| run_exhausted es e :
    i + Z.of_nat (List.length es) = maxRetries - 1 ->
    fst (fn (stateAfter fn (List.length es) (opState w))) = inr e ->
    loopRun fn maxRetries delay i w
      (Thrown e
         (mkProbe (stateAfter fn (S (List.length es)) (opState w))
            (events w ++ failedRounds delay (i + 1) es
               ++ [Invoked (Some e); attemptLog maxRetries e])))
| run_skipped :
    maxRetries <= i ->
    loopRun fn maxRetries delay i w (Returned None w).

(** An operation that counts its calls and always fails with an error
    naming the call. *)
Definition failingCounter (calls : nat) : (unit + exn) * nat :=
  (inr (Error ("failure " ++ JsString.ofNumber (Z.of_nat (S calls)))), S calls).

(* ----------------------------------------------------------------- *)
(** ** Cookie strings *)

Fixpoint countChar (c : ascii) (s : string) : nat :=
  match s with
  | EmptyString => O
  | String a r => (if Ascii.eqb a c then 1 else 0) + countChar c r
  end.

(* ----------------------------------------------------------------- *)
(** ** Reading a history; scripted pages *)

Definition countAction (p : action -> bool) (h : history) : nat :=
  List.length (filter p h).

Definition isMeasure (a : action) : bool :=
  match a with EvalScrollHeight => true | _ => false end.

Definition isScroll (a : action) : bool :=
  match a with EvalScrollTo => true | _ => false end.

(** A page whose [k]-th height measurement (counted from 0) returns
    [heights k], and on which no call fails. *)
Definition scriptedPage (heights : nat -> Z) : Environment :=
  {| settle := fun _ _ => Fulfilled tt;
     currentUrl := fun _ => "https://linktr.ee/admin/links";
     scrollHeight := fun h => Fulfilled (heights (countAction isMeasure h));
     document := fun _ => Fulfilled (Dom.TextNode "");
     respond := fun _ _ => Fulfilled (mkResponse 200 (Fulfilled ""));
     today := fun _ => "2024-01-01" |}.

(** A finite script; measurements past its end return the last height. *)
Definition script (hs : list Z) : nat -> Z :=
  fun k => nth k hs (last hs 0).

(** What [previousHeight] holds when measurement [k] is compared. *)
Definition previousOf (heights : nat -> Z) (k : nat) : Z :=
  match k with
  | O => 0
  | S j => heights j
  end.

(** Measurement [k] strictly exceeds the height it is compared with. *)
Definition grows (heights : nat -> Z) (k : nat) : Prop :=
  heights k > previousOf heights k.

(* ----------------------------------------------------------------- *)
(** ** Webhook delivery *)

Definition isFetch (a : action) : bool :=
  match a with Fetch _ _ _ _ => true | _ => false end.

(** The history reached when a run settles. *)
Definition settledHistory {A} (r : result history A) : option history :=
  match r with
  | Returned _ h => Some h
  | Thrown _ h => Some h
  | Pending => None
  end.

(** The console line of line 68. *)
Definition webhookStatusLine (r : Response) (body : string) : action :=
  ConsoleLog [LStr ("Webhook status: " ++ JsString.ofNumber (status r)
                    ++ " " ++ body)].

(** The error of line 71. *)
Definition webhookFailed (r : Response) (body : string) : exn :=
  Error ("Webhook failed: " ++ JsString.ofNumber (status r) ++ " " ++ body).

(** Every settled run of [c] extends the history and adds at most [n]
    requests to it. *)
Definition fetches {A} (n : nat) (c : M history A) : Prop :=
  forall h,
    match settledHistory (c h) with
    | Some h' => exists t, h' = h ++ t /\ (countAction isFetch t <= n)%nat
    | None => True
    end.

(** An endpoint that answers every request with status 500 and the body
    text [error]; every other call succeeds. *)
Definition failingWebhook : Environment :=
  {| settle := fun _ _ => Fulfilled tt;
     currentUrl := fun _ => "https://linktr.ee/admin/links";
     scrollHeight := fun _ => Fulfilled 900;
     document := fun _ => Fulfilled (Dom.TextNode "");
     respond := fun _ _ => Fulfilled (mkResponse 500 (Fulfilled "error"));
     today := fun _ => "2024-01-01" |}.

Definition cookieOnlyConfig : Config :=
  mkConfig None None (Some "session=abc") (Some "https://example.test/hook").

(* ----------------------------------------------------------------- *)
(** ** Start-up and release of the browser *)

(** The history of a run up to the creation of the page. *)
Definition startup (env : Environment) : history :=
  let h := [ConsoleLog [LStr "Starting Linktree insights scraper..."]] in
  [ConsoleLog [LStr "Starting Linktree insights scraper..."];
   GetJSTDate;
   ConsoleLog [LStr ("Today: " ++ today env h)];
   Launch; NewContext; NewPage].

(** The browser, the context and the page are created without error. *)
Definition startupSucceeds (env : Environment) : Prop :=
  settle env Launch (firstn 3 (startup env)) = Fulfilled tt /\
  settle env NewContext (firstn 4 (startup env)) = Fulfilled tt /\
  settle env NewPage (firstn 5 (startup env)) = Fulfilled tt.

(** The [catch] block of lines 207-209. *)
Definition scrapingFailed (error : exn) : M history unit :=
  console_error [LStr "Scraping failed:"; LErr error] ;; throw error.

(** A browser whose [newContext] call fails; every other call succeeds. *)
Definition contextCreationFails : Environment :=
  {| settle := fun act _ =>
                 match act with
                 | NewContext => Rejected (mkExn "Error" "browser.newContext failed")
                 | _ => Fulfilled tt
                 end;
     currentUrl := fun _ => "https://linktr.ee/admin/links";
     scrollHeight := fun _ => Fulfilled 900;
     document := fun _ => Fulfilled (Dom.TextNode "");
     respond := fun _ _ => Fulfilled (mkResponse 200 (Fulfilled "ok"));
     today := fun _ => "2024-01-01" |}.

(** A browser whose [newPage] call fails; every other call succeeds. *)
Definition pageCreationFails : Environment :=
  {| settle := fun act _ =>
                 match act with
                 | NewPage => Rejected (mkExn "Error" "context.newPage failed")
                 | _ => Fulfilled tt
                 end;
     currentUrl := fun _ => "https://linktr.ee/admin/links";
     scrollHeight := fun _ => Fulfilled 900;
     document := fun _ => Fulfilled (Dom.TextNode "");
     respond := fun _ _ => Fulfilled (mkResponse 200 (Fulfilled "ok"));
     today := fun _ => "2024-01-01" |}.

Definition isLaunchAction (a : action) : bool :=
  match a with Launch => true | _ => false end.

Definition isClose (a : action) : bool :=
  match a with BrowserClose => true | _ => false end.

(* ----------------------------------------------------------------- *)
(** ** Cookie authentication *)

Definition redirectedToLogin : exn :=
  Error "Cookie authentication failed - redirected to login".

Definition noFallback : exn :=
  Error "Cookie authentication failed and no login credentials available".

(** The console line of line 116. *)
Definition fallbackLine (e : exn) : action :=
  ConsoleLog [LStr "Cookie authentication failed, falling back to login:";
              LStr (message e)].

(** The places where the cookie attempt started in history [h] can fail
    with error [e], leaving history [h']: cookie injection, navigation, or
    the redirect check.  ([parseCookies] is a total function and raises
    nothing.) *)
Inductive cookieFailure (env : Environment) (cookie : string) (h : history)
  : exn -> history -> Prop :=
| injection_rejected e :
    settle env (AddCookies (parseCookies cookie)) h = Rejected e ->
    cookieFailure env cookie h e (h ++ [AddCookies (parseCookies cookie)])
| navigation_rejected e :
    let h1 := h ++ [AddCookies (parseCookies cookie)] in
    settle env (AddCookies (parseCookies cookie)) h = Fulfilled tt ->
    settle env (Goto "https://linktr.ee/admin/links") h1 = Rejected e ->
    cookieFailure env cookie h e (h1 ++ [Goto "https://linktr.ee/admin/links"])
| login_redirect :
    let h1 := h ++ [AddCookies (parseCookies cookie)] in
    let h2 := h1 ++ [Goto "https://linktr.ee/admin/links"] in
    settle env (AddCookies (parseCookies cookie)) h = Fulfilled tt ->
    settle env (Goto "https://linktr.ee/admin/links") h1 = Fulfilled tt ->
    JsString.includes "/login" (currentUrl env h2) = true ->
    cookieFailure env cookie h redirectedToLogin (h2 ++ [PageUrl]).

(** A browser in which the navigation to the dashboard times out (no
    login redirect is ever observed); every other call succeeds. *)
Definition navigationTimesOut : Environment :=
  {| settle := fun act _ =>
                 match act with
                 | Goto "https://linktr.ee/admin/links" =>
                     Rejected (mkExn "TimeoutError" "page.goto: Timeout exceeded")
                 | _ => Fulfilled tt
                 end;
     currentUrl := fun _ => "about:blank";
     scrollHeight := fun _ => Fulfilled 900;
     document := fun _ => Fulfilled (Dom.TextNode "");
     respond := fun _ _ => Fulfilled (mkResponse 200 (Fulfilled "ok"));
     today := fun _ => "2024-01-01" |}.

(* ----------------------------------------------------------------- *)
(** ** Records, documents used as examples *)

(** A record is kept: both fields are truthy, hence neither is the empty
    string. *)
Definition validRecord (r : LinkRecord) : Prop :=
  toBoolean (title r) = true /\ toBoolean (url r) = true /\
  title r <> JsString "" /\ url r <> JsString "".

(** The record of a card (line 186). *)
Definition recordOf (card : node) : LinkRecord :=
  mkLink (titleOf card) (urlOf card) (clicksOf card).

(** The guard of line 185. *)
Definition keepsCard (card : node) : bool :=
  toBoolean (titleOf card) && toBoolean (urlOf card).

(** An element without IDL properties. *)
Definition elem (tag : string) (attrs : list (string * string))
           (kids : list node) : node :=
  ElementNode tag attrs JsUndefined JsUndefined kids.

(** A page with no card at all. *)
Definition emptyDashboard : node :=
  elem "html" [] [elem "body" [] [elem "p" [] [TextNode "No links yet"]]].

(** A page with one card marked by [data-testid] and one card that only
    the substring selector on [class] matches. *)
Definition testidCard : node :=
  elem "div" [("data-testid", "link-card")]
    [elem "h3" [] [TextNode "Shop"];
     ElementNode "a" [("href", "https://shop.example/")]
                 JsUndefined (JsString "https://shop.example/") []].

Definition classOnlyCard : node :=
  elem "div" [("class", "my-link-card-v2")]
    [elem "h3" [] [TextNode "Blog"];
     ElementNode "a" [("href", "https://blog.example/")]
                 JsUndefined (JsString "https://blog.example/") []].

Definition mixedDashboard : node :=
  elem "html" [] [elem "body" [] [testidCard; classOnlyCard]].

Definition notDigit (c : ascii) : bool := negb (JsString.isDigit c).

(** [post] is empty or begins with a character that is not a digit. *)
Definition endsDigitRun (post : string) : Prop :=
  match post with
  | EmptyString => True
  | String c _ => JsString.isDigit c = false
  end.


(* ----------------------------------------------------------------- *)
(** ** Further vocabulary: cookies *)

(** The cookie, if any, that one segment of the header contributes. *)
Definition cookiesOfSegment (pair : string) : list Cookie :=
  parseCookies_step [] pair.

(** What every cookie built at lines 41-49 looks like: a name that is not
    empty, no separator character inside the name or the value, and the
    fixed attributes of the Linktree domain. *)
Definition linktreeScoped (c : Cookie) : Prop :=
  name c <> EmptyString /\
  countChar "=" (name c) = O /\ countChar ";" (name c) = O /\
  countChar "=" (value c) = O /\ countChar ";" (value c) = O /\
  domain c = ".linktr.ee" /\ path c = "/" /\
  httpOnly c = false /\ secure c = true /\ sameSite c = "Lax".

(* ----------------------------------------------------------------- *)
(** ** Further vocabulary: retry *)

(** The time a recorded run spent waiting between attempts. *)
Definition totalDelay (evs : list probe_event) : Z :=
  fold_right Z.add 0 (delays evs).

(** The waits [delay * k] for [k = first, first + 1, ...], [count] of
    them. *)
Definition linearDelays (delay : Z) (first count : nat) : list Z :=
  map (fun k => delay * Z.of_nat k) (seq first count).

(** An operation that fails until its call counter reaches [good], and
    succeeds with the number of the call from then on. *)
Definition flakyCounter (good : nat) (calls : nat) : (nat + exn) * nat :=
  if (good <=? S calls)%nat then (inl (S calls), S calls)
  else (inr (Error ("failure " ++ JsString.ofNumber (Z.of_nat (S calls)))),
        S calls).

(* ----------------------------------------------------------------- *)
(** ** Further vocabulary: the extractor *)

(** The card selectors without the class-token alternative. *)
Definition cardSelectorsWithoutClassToken : selector_list :=
  [ [AttrEquals "data-testid" "link-card"];
    [AttrContains "class" "link-card"] ].



(* ----------------------------------------------------------------- *)
(** ** Further vocabulary: webhook *)

(** An endpoint that cannot be reached: [fetch] rejects. *)
Definition unreachableWebhook : Environment :=
  {| settle := fun _ _ => Fulfilled tt;
     currentUrl := fun _ => "https://linktr.ee/admin/links";
     scrollHeight := fun _ => Fulfilled 900;
     document := fun _ => Fulfilled (Dom.TextNode "");
     respond := fun _ _ => Rejected (mkExn "TypeError" "fetch failed");
     today := fun _ => "2024-01-01" |}.

(* ----------------------------------------------------------------- *)
(** ** Further vocabulary: counting and confining the calls of a run *)

(** Every settled run of [c] extends the history, and adds at most [n]
    calls that satisfy [p]. *)
Definition emits {A} (p : action -> bool) (n : nat) (c : M history A) : Prop :=
  forall h,
    match settledHistory (c h) with
    | Some h' => exists t, h' = h ++ t /\ (countAction p t <= n)%nat
    | None => True
    end.

(** The weight of one call. *)
Definition weight (p : action -> bool) (a : action) : nat :=
  if p a then 1%nat else 0%nat.

(** A predicate that ignores the console, the timer of [retry] and the
    calls of the scroll loop. *)
Definition ignoresLoops (p : action -> bool) : Prop :=
  (forall args, p (ConsoleLog args) = false) /\
  (forall args, p (ConsoleError args) = false) /\
  (forall ms, p (SetTimeout ms) = false) /\
  p EvalScrollHeight = false /\
  p EvalScrollTo = false /\
  (forall ms, p (WaitForTimeout ms) = false).

Definition isClick (a : action) : bool :=
  match a with Click _ => true | _ => false end.

Definition isLoginVisit (a : action) : bool :=
  match a with
  | Goto u => String.eqb u "https://linktr.ee/login"
  | _ => false
  end.

Definition isAddCookies (a : action) : bool :=
  match a with AddCookies _ => true | _ => false end.

Definition isExtract (a : action) : bool :=
  match a with EvalExtract => true | _ => false end.

(** What a run may spend on one kind of call: start-up, authentication
    (one retried login at most, or one cookie attempt followed by one
    retried login), extraction, delivery and release. *)
Definition loginCost (p : action -> bool) (cfg : Config) : nat :=
  (weight p (Goto "https://linktr.ee/login")
   + (weight p (Fill ("input[type=" ++ JsString.quoted "email" ++ "]")
                     (LINKTREE_EMAIL cfg))
      + (weight p (Fill ("input[type=" ++ JsString.quoted "password" ++ "]")
                        (LINKTREE_PASSWORD cfg))
         + (weight p (Click ("button[type=" ++ JsString.quoted "submit" ++ "]"))
            + weight p (WaitForURL "**/admin**" 10000)))))%nat.

(** The cost of the cookie attempt of lines 104-114. *)
Definition cookieCost (p : action -> bool) (cfg : Config) : nat :=
  match LT_COOKIE cfg with
  | Some cookie =>
      (weight p (AddCookies (parseCookies cookie))
       + (weight p (Goto "https://linktr.ee/admin/links")
          + weight p PageUrl))%nat
  | None => 0%nat
  end.

(** The cost of a whole run, [delivery] bounding the cost of the request
    itself. *)
Definition mainCost (p : action -> bool) (cfg : Config) (delivery : nat) : nat :=
  (weight p GetJSTDate + weight p Launch + weight p NewContext
   + weight p NewPage
   + (cookieCost p cfg + loginCost p cfg * 3)
   + weight p EvalExtract
   + (delivery + weight p ResponseText)
   + weight p BrowserClose)%nat.

(** Every settled run of [c] extends the history by calls that all
    satisfy [P]. *)
Definition confined {A} (P : action -> Prop) (c : M history A) : Prop :=
  forall h,
    match settledHistory (c h) with
    | Some h' => exists t, h' = h ++ t /\ Forall P t
    | None => True
    end.

(** The calls a run is written to make, for the configuration [cfg] and
    the date [date] read at start-up: the two Linktree pages (the
    dashboard only with a cookie configured, the login page only with
    both credentials), the configured cookie, the configured credentials
    in the two fields of the login form, the waits of [retry] (1000 and
    2000 ms) and of the scroll loop, and one kind of request: a JSON POST
    to the configured endpoint whose batch carries [date] and valid
    records only. *)
Definition allowedCall (cfg : Config) (date : string) (a : action) : Prop :=
  match a with
  | ConsoleLog _ | ConsoleError _ => True
  | SetTimeout ms => ms = 1000 \/ ms = 2000
  | GetJSTDate | Launch | NewContext | NewPage | PageUrl => True
  | EvalScrollHeight | EvalScrollTo | EvalExtract => True
  | ResponseText | BrowserClose => True
  | AddCookies cs =>
      exists cookie, LT_COOKIE cfg = Some cookie /\ cs = parseCookies cookie
  | Goto u =>
      (u = "https://linktr.ee/admin/links" /\ truthy (LT_COOKIE cfg) = true) \/
      (u = "https://linktr.ee/login" /\ credentialsMissing cfg = false)
  | Fill sel t =>
      credentialsMissing cfg = false /\
      ((sel = ("input[type=" ++ JsString.quoted "email" ++ "]")%string /\
        t = LINKTREE_EMAIL cfg) \/
       (sel = ("input[type=" ++ JsString.quoted "password" ++ "]")%string /\
        t = LINKTREE_PASSWORD cfg))
  | Click sel =>
      credentialsMissing cfg = false /\
      sel = ("button[type=" ++ JsString.quoted "submit" ++ "]")%string
  | WaitForURL pattern timeout =>
      credentialsMissing cfg = false /\ pattern = "**/admin**" /\
      timeout = 10000
  | WaitForTimeout ms => ms = 2000
  | Fetch u method contentType data =>
      u = WEBHOOK_URL cfg /\ method = "POST" /\
      contentType = "application/json" /\
      dateISO data = date /\ Forall validRecord (items data)
  end.

(** The date a run reads at start-up. *)
Definition runDate (env : Environment) : string :=
  today env [ConsoleLog [LStr "Starting Linktree insights scraper..."]].

Definition missingWebhookUrl : exn :=
  Error "Missing required environment variable: WEBHOOK_URL".



(** A configuration without the endpoint. *)
Definition endpointlessConfig : Config :=
  mkConfig (Some "me@example.test") (Some "secret") None (Some "").

(** An environment in which every call of the script succeeds: the
    browser calls are fulfilled, the page height never exceeds [H], the
    document can be read, and the endpoint answers every request with a
    2xx status and a readable body. *)
Definition cooperative (env : Environment) (H : Z) : Prop :=
  (forall act h, settle env act h = Fulfilled tt) /\
  (forall h, exists z, scrollHeight env h = Fulfilled z /\ z <= H) /\
  (forall h, exists root, document env h = Fulfilled root) /\
  (forall req h, exists resp body,
      respond env req h = Fulfilled resp /\ text resp = Fulfilled body /\
      200 <= status resp <= 299).

(** The dashboard never redirects to the login page. *)
Definition neverRedirected (env : Environment) : Prop :=
  forall h, JsString.includes "/login" (currentUrl env h) = false.

Definition isFill (a : action) : bool :=
  match a with Fill _ _ => true | _ => false end.

(** A configuration with a cookie and both credentials. *)
Definition fullConfig : Config :=
  mkConfig (Some "me@example.test") (Some "secret") (Some "session=abc")
           (Some "https://example.test/hook").

(** A browser whose dashboard always redirects to the login page (the
    cookie has expired); every call succeeds. *)
Definition expiredCookiePage : Environment :=
  {| settle := fun _ _ => Fulfilled tt;
     currentUrl := fun _ => "https://linktr.ee/login?next=admin";
     scrollHeight := fun _ => Fulfilled 900;
     document := fun _ => Fulfilled (Dom.TextNode "");
     respond := fun _ _ => Fulfilled (mkResponse 200 (Fulfilled "ok"));
     today := fun _ => "2024-01-01" |}.

(** The pipeline after authentication (lines 146-205), as in [scrape]. *)
Definition afterAuthentication (env : Environment) (cfg : Config)
           (fuel : nat) (today : string) : M history unit :=
  effect (console_log [LStr "Loading all links..."]) ;;
  retry_default (loadAll env fuel) ;;
  effect (console_log [LStr "Extracting link data..."]) ;;
  root <- await EvalExtract (document env) ;;
  let linkData := Dom.extract root in
  effect (console_log
            [LStr ("Extracted "
                   ++ JsString.ofNumber (Z.of_nat (List.length linkData))
                   ++ " links")]) ;;
  let webhookData := mkWebhookData today linkData in
  sendToWebhook env cfg webhookData ;;
  effect (console_log [LStr "Scraping completed successfully"]).

(** The calls of a successful cookie attempt. *)
Definition cookieCalls (cookie : string) : history :=
  [AddCookies (parseCookies cookie);
   Goto "https://linktr.ee/admin/links";
   PageUrl;
   ConsoleLog [LStr "Cookie authentication successful"]].

(* ================================================================= *)
(** * Properties *)

(* ================================================================= *)
(** ** retry *)

Section RetryOnProbe.
Context {St A : Type}.
Variable fn : St -> (A + exn) * St.
Variables maxRetries delay : Z.

Lemma retry_loop_run (fuel : nat) :
  forall i w,
    0 <= i -> (Z.to_nat (maxRetries - i) < fuel)%nat ->
    loopRun fn maxRetries delay i w
      (retry_loop (probed fn) maxRetries delay fuel i w).
Proof.
  induction fuel as [|fuel IH]; intros i w Hi Hfuel; [lia|].
  cbn [retry_loop].
  destruct (i <? maxRetries) eqn:Hlt.
  2:{ apply Z.ltb_ge in Hlt. now apply run_skipped. }
  apply Z.ltb_lt in Hlt.
  set (loop := retry_loop (probed fn) maxRetries delay fuel) in *.
  unfold tryCatch, bind, probed.
  destruct (fn (opState w)) as [[a|e] s'] eqn:Hfn.
  - cbn.
    replace s' with (stateAfter fn 1 (opState w))
      by (cbn; now rewrite Hfn).
    apply (run_success fn maxRetries delay i w [] a); cbn; [lia | now rewrite Hfn].
  - cbn [effect ret throw].
    destruct (i =? maxRetries - 1) eqn:Hlast.
    + apply Z.eqb_eq in Hlast. cbn.
      rewrite <- app_assoc. cbn [app].
      replace s' with (stateAfter fn 1 (opState w))
        by (cbn; now rewrite Hfn).
      replace (i + 1) with maxRetries by lia.
      apply (run_exhausted fn maxRetries delay i w [] e); cbn; [lia | now rewrite Hfn].
    + apply Z.eqb_neq in Hlast. cbn [console_log setTimeout probe_runtime
                                      opState events].
      match goal with
      | |- loopRun _ _ _ _ _ (loop _ ?w1) =>
          specialize (IH (i + 1) w1 ltac:(lia) ltac:(lia)); revert IH;
          generalize (loop (i + 1) w1)
      end.
      intros r Hr.
      assert (Hs' : s' = snd (fn (opState w))) by now rewrite Hfn.
      inversion Hr as [es a Hlen Ha | es e' Hlen He | Hge]; subst r;
        cbn [opState events] in *.
      * replace (stateAfter fn (S (List.length es)) s')
          with (stateAfter fn (S (List.length (e :: es))) (opState w))
          by (unfold stateAfter; cbn [List.length];
              rewrite (Nat.iter_succ_r (S (List.length es))), Hs'; reflexivity).
        repeat rewrite <- app_assoc. cbn [app].
        apply (run_success fn maxRetries delay i w (e :: es) a).
        -- cbn [List.length]. lia.
        -- cbn [List.length]. unfold stateAfter in *.
           rewrite Nat.iter_succ_r, <- Hs'. exact Ha.
      * replace (stateAfter fn (S (List.length es)) s')
          with (stateAfter fn (S (List.length (e :: es))) (opState w))
          by (unfold stateAfter; cbn [List.length];
              rewrite (Nat.iter_succ_r (S (List.length es))), Hs'; reflexivity).
        repeat rewrite <- app_assoc. cbn [app].
        apply (run_exhausted fn maxRetries delay i w (e :: es) e').
        -- cbn [List.length]. lia.
        -- cbn [List.length]. unfold stateAfter in *.
           rewrite Nat.iter_succ_r, <- Hs'. exact He.
      * lia.
Qed.

(** The fuel of [retry] is enough: the run is one of the three above. *)
Lemma retry_run (s : St) :
  loopRun fn maxRetries delay 0 (mkProbe s [])
    (retry (probed fn) maxRetries delay (mkProbe s [])).
Proof.
  unfold retry. apply retry_loop_run; lia.
Qed.
End RetryOnProbe.

(** *** Reading a recorded run *)

Lemma invocations_app (l1 l2 : list probe_event) :
  invocations (l1 ++ l2) = invocations l1 ++ invocations l2.
Proof.
  induction l1 as [|[r|args|ms] l1 IH]; cbn; now rewrite ?IH.
Qed.

Lemma invocations_failedRounds (delay k : Z) (es : list exn) :
  invocations (failedRounds delay k es) = map Some es.
Proof.
  revert k; induction es as [|e es IH]; intros k; cbn; now rewrite ?IH.
Qed.

Lemma failures_app (l1 l2 : list probe_event) :
  failures (l1 ++ l2) = failures l1 ++ failures l2.
Proof.
  induction l1 as [|[[e|]|args|ms] l1 IH]; cbn; now rewrite ?IH.
Qed.

Lemma failures_failedRounds (delay k : Z) (es : list exn) :
  failures (failedRounds delay k es) = es.
Proof.
  revert k; induction es as [|e es IH]; intros k; cbn; now rewrite ?IH.
Qed.

(** A run whose rounds are followed by one more invocation waits
    [delay * k] after attempt [k], for every attempt of the rounds. *)
Lemma delaysAfter_failedRounds (delay : Z) (es : list exn) :
  forall (j : Z) (k : nat) (r : option exn) (rest : list probe_event),
    (1 <= k <= List.length es)%nat ->
    delaysAfter k (failedRounds delay j es ++ Invoked r :: rest)
    = [delay * (j + Z.of_nat k - 1)].
Proof.
  induction es as [|e es IH]; intros j k r rest Hk; cbn [List.length] in Hk.
  - lia.
  - destruct k as [|[|k]]; [lia| |].
    + cbn. destruct es; cbn; f_equal; f_equal; lia.
    + cbn [failedRounds app delaysAfter attemptLog].
      rewrite IH by lia. f_equal. f_equal. lia.
Qed.

(** Nothing is waited for after the invocation that follows the rounds. *)
Lemma delaysAfter_last (delay : Z) (es : list exn) :
  forall (j : Z) (r : option exn) (rest : list probe_event),
    delays rest = [] -> invocations rest = [] ->
    delaysAfter (S (List.length es))
                (failedRounds delay j es ++ Invoked r :: rest) = [].
Proof.
  induction es as [|e es IH]; intros j r rest Hd Hi.
  - cbn. induction rest as [|[r'|args|ms] rest IHr]; cbn in *;
      try discriminate; auto.
  - cbn [failedRounds app delaysAfter attemptLog List.length].
    now apply IH.
Qed.

(** C1.  With [maxRetries = n >= 1] and an operation that fails on every
    attempt, [retry] invokes the operation exactly [n] times and then
    throws: the thrown value is the very error the [n]-th invocation
    raised (the last of the recorded failures), not a wrapper around it,
    and the run settles (it is not [Pending]). *)
Theorem retry_always_failing_operation :
  forall (St A : Type) (fn : St -> (A + exn) * St) (n delay : Z) (s : St),
    1 <= n ->
    alwaysFails fn ->
    exists (e : exn) (w : probe St),
      retry (probed fn) n delay (mkProbe s []) = Thrown e w /\
      List.length (invocations (events w)) = Z.to_nat n /\
      opState w = stateAfter fn (Z.to_nat n) s /\
      fst (fn (stateAfter fn (Z.to_nat n - 1) s)) = inr e /\
      exists earlier, failures (events w) = earlier ++ [e].
Proof.
  intros St A fn n delay s Hn Hfail.
  pose proof (retry_run fn n delay s) as Hrun.
  inversion Hrun as [es a Hlen Ha | es e Hlen He | Hge];
    cbn [opState events] in *.
  - destruct (Hfail (stateAfter fn (List.length es) s)) as [e He].
    congruence.
  - assert (Hes : S (List.length es) = Z.to_nat n) by lia.
    exists e. eexists. split; [reflexivity|].
    cbn [opState events app].
    rewrite invocations_app, invocations_failedRounds, length_app, length_map.
    rewrite failures_app, failures_failedRounds.
    cbn [invocations failures attemptLog List.length].
    repeat split.
    + lia.
    + rewrite <- Hes. reflexivity.
    + replace (Z.to_nat n - 1)%nat with (List.length es) by lia. exact He.
    + now exists es.
  - lia.
Qed.

Lemma retry_always_failing_operation_witness :
  1 <= 3 /\ alwaysFails failingCounter /\
  exists (e : exn) (w : probe nat),
    retry (probed failingCounter) 3 1000 (mkProbe 0%nat []) = Thrown e w /\
    List.length (invocations (events w)) = Z.to_nat 3 /\
    opState w = stateAfter failingCounter (Z.to_nat 3) 0%nat /\
    fst (failingCounter (stateAfter failingCounter (Z.to_nat 3 - 1) 0%nat))
      = inr e /\
    exists earlier, failures (events w) = earlier ++ [e].
Proof.
  assert (H1 : 1 <= 3) by lia.
  assert (H2 : alwaysFails failingCounter)
    by (intros calls; eexists; reflexivity).
  split; [exact H1|]. split; [exact H2|].
  exact (retry_always_failing_operation nat unit failingCounter 3 1000 0%nat
           H1 H2).
Defined.

(** C9.  Whatever the operation does: when attempt [k] (with
    [1 <= k < maxRetries]) was made and failed, [retry] waits exactly once
    before the next attempt, for [delay * k], and attempt [k + 1] is made;
    after the last attempt of the run nothing is waited for; and there
    are at most [maxRetries] attempts. *)
Theorem retry_delay_is_linear :
  forall (St A : Type) (fn : St -> (A + exn) * St) (n delay : Z) (s : St),
    let evs := finalEvents (retry (probed fn) n delay (mkProbe s [])) in
    (forall (k : Z) (e : exn),
        1 <= k < n ->
        nth_error (invocations evs) (Z.to_nat k - 1) = Some (Some e) ->
        delaysAfter (Z.to_nat k) evs = [delay * k] /\
        (Z.to_nat k < List.length (invocations evs))%nat) /\
    delaysAfter (List.length (invocations evs)) evs = [] /\
    Z.of_nat (List.length (invocations evs)) <= Z.max n 0.
Proof.
  intros St A fn n delay s evs.
  pose proof (retry_run fn n delay s) as Hrun. subst evs.
  inversion Hrun as [es a Hlen Ha | es e' Hlen He | Hge];
    cbn [finalEvents opState events app] in *.
  - (* success after [length es] failed rounds *)
    rewrite invocations_app, invocations_failedRounds.
    cbn [invocations]. rewrite length_app, length_map. cbn [List.length].
    split; [|split].
    + intros k e Hk Hnth.
      assert (Hin : (Z.to_nat k - 1 < List.length es)%nat).
      { destruct (Nat.lt_ge_cases (Z.to_nat k - 1) (List.length es)) as [|Hge];
          [assumption|].
        rewrite nth_error_app2 in Hnth by (rewrite length_map; exact Hge).
        rewrite length_map in Hnth.
        destruct (Z.to_nat k - 1 - List.length es)%nat as [|[|m]];
          cbn in Hnth; discriminate. }
      split; [|lia].
      rewrite delaysAfter_failedRounds by lia.
      f_equal. f_equal. lia.
    + replace (List.length es + 1)%nat with (S (List.length es)) by lia.
      now apply delaysAfter_last.
    + lia.
  - (* every attempt failed *)
    rewrite invocations_app, invocations_failedRounds.
    cbn [invocations attemptLog]. rewrite length_app, length_map.
    cbn [List.length].
    split; [|split].
    + intros k e Hk Hnth.
      assert (Hin : (Z.to_nat k - 1 < List.length es)%nat) by lia.
      split; [|lia].
      rewrite delaysAfter_failedRounds by lia.
      f_equal. f_equal. lia.
    + replace (List.length es + 1)%nat with (S (List.length es)) by lia.
      now apply delaysAfter_last.
    + lia.
  - (* the loop body never ran *)
    cbn. split; [|split]; [|reflexivity|lia].
    intros k e Hk. lia.
Qed.

Lemma retry_delay_is_linear_witness :
  let evs := finalEvents
               (retry (probed failingCounter) 3 1000 (mkProbe 0%nat [])) in
  1 <= 2 < 3 /\
  nth_error (invocations evs) (Z.to_nat 2 - 1)
    = Some (Some (Error "failure 2")) /\
  delaysAfter (Z.to_nat 2) evs = [1000 * 2] /\
  (Z.to_nat 2 < List.length (invocations evs))%nat.
Proof.
  assert (H1 : 1 <= 2 < 3) by lia.
  assert (H2 : nth_error
                 (invocations
                    (finalEvents
                       (retry (probed failingCounter) 3 1000
                          (mkProbe 0%nat []))))
                 (Z.to_nat 2 - 1) = Some (Some (Error "failure 2")))
    by reflexivity.
  split; [exact H1|]. split; [exact H2|].
  exact (proj1 (retry_delay_is_linear nat unit failingCounter 3 1000 0%nat)
           2 (Error "failure 2") H1 H2).
Defined.

(* ================================================================= *)
(** ** parseCookies *)

(** Cutting at every separator and cutting at the first one agree on the
    first piece; the rest of the first cut is what [split] goes on with. *)
Lemma split_splitFirst (sep : ascii) (s : string) :
  JsString.split sep s =
  match splitFirst sep s with
  | (before, None) => [before]
  | (before, Some after) => before :: JsString.split sep after
  end.
Proof.
  induction s as [|c r IH]; cbn; [reflexivity|].
  destruct (Ascii.eqb c sep); [reflexivity|].
  rewrite IH. destruct (splitFirst sep r) as [before [after|]]; reflexivity.
Qed.

Lemma split_no_separator (sep : ascii) (s : string) :
  countChar sep s = O -> JsString.split sep s = [s].
Proof.
  induction s as [|c r IH]; cbn; [reflexivity|].
  destruct (Ascii.eqb c sep); [discriminate|].
  cbn. intros H. now rewrite IH.
Qed.

Lemma countChar_splitFirst (sep : ascii) (s : string) :
  forall before after,
    splitFirst sep s = (before, Some after) ->
    countChar sep s = S (countChar sep after).
Proof.
  induction s as [|c r IH]; cbn; intros before after H; [discriminate|].
  destruct (Ascii.eqb c sep).
  - now inversion H.
  - destruct (splitFirst sep r) as [b [a|]] eqn:Hr; inversion H; subst.
    cbn. now apply (IH b).
Qed.

(** On a segment with at most one [=] the loop body of the code and the
    one of the specification do the same. *)
Lemma parseCookies_step_agrees (cookies : list Cookie) (pair : string) :
  (countChar "=" (JsString.trim pair) <= 1)%nat ->
  parseCookies_step cookies pair = parseCookies_spec_step cookies pair.
Proof.
  intros Hcount. unfold parseCookies_step, parseCookies_spec_step.
  rewrite split_splitFirst.
  destruct (splitFirst "=" (JsString.trim pair)) as [n [v|]] eqn:Hcut.
  - apply countChar_splitFirst in Hcut.
    rewrite (split_no_separator "=" v) by lia.
    cbn [nth_error]. destruct (truthy (Some n) && truthy (Some v)); reflexivity.
  - cbn [nth_error truthy]. now rewrite !andb_false_r.
Qed.

(** The code and the specification's parser agree on every cookie string
    none of whose segments has a second [=]. *)
Lemma parseCookies_agrees_without_second_equals (cookieString : string) :
  Forall (fun pair => (countChar "=" (JsString.trim pair) <= 1)%nat)
         (JsString.split ";" cookieString) ->
  parseCookies cookieString = parseCookies_spec cookieString.
Proof.
  unfold parseCookies, parseCookies_spec.
  generalize (@nil Cookie).
  induction (JsString.split ";" cookieString) as [|pair pairs IH];
    intros acc Hall; cbn; [reflexivity|].
  inversion Hall as [|? ? Hpair Hrest]; subst.
  rewrite parseCookies_step_agrees by assumption.
  now apply IH.
Qed.

(** C3.  [parseCookies] cuts a segment at every [=] and keeps the first two
    pieces only: a value that holds an [=] is truncated at it, where the
    parser of the specification (cut at the first [=]) keeps it whole. *)
Theorem parseCookies_truncates_value_at_second_equals :
  parseCookies "session=abc==; theme=dark"
    = [linktreeCookie "session" "abc"; linktreeCookie "theme" "dark"] /\
  parseCookies_spec "session=abc==; theme=dark"
    = [linktreeCookie "session" "abc=="; linktreeCookie "theme" "dark"] /\
  parseCookies "token=a=b" = [linktreeCookie "token" "a"] /\
  parseCookies_spec "token=a=b" = [linktreeCookie "token" "a=b"].
Proof.
  repeat split; reflexivity.
Qed.

(* ================================================================= *)
(** ** The scroll loop *)

Lemma countAction_snoc (p : action -> bool) (h : history) (a : action) :
  countAction p (h ++ [a]) = (countAction p h + if p a then 1 else 0)%nat.
Proof.
  unfold countAction. rewrite filter_app, length_app. cbn.
  destruct (p a); reflexivity.
Qed.

Section ScrollLoop.
Variable heights : nat -> Z.

(** The loop entered with measurement [k] in [currentHeight]: it returns
    at the first measurement [m >= k] that does not grow, after [m - k]
    turns; it never throws; it exhausts its fuel only if every
    measurement it saw grew. *)
Lemma scrollLoop_run (fuel : nat) :
  forall (k : nat) (h : history),
    countAction isMeasure h = S k ->
    match scrollLoop (scriptedPage heights) fuel (previousOf heights k) (heights k) h with
    | Returned _ h' =>
        exists m, (k <= m < k + fuel)%nat /\
                  ~ grows heights m /\
                  (forall j, (k <= j < m)%nat -> grows heights j) /\
                  countAction isScroll h' = (countAction isScroll h + (m - k))%nat /\
                  countAction isMeasure h' = S m
    | Thrown _ _ => False
    | Pending => forall j, (k <= j < k + fuel)%nat -> grows heights j
    end.
Proof.
  induction fuel as [|fuel IH]; intros k h Hk; cbn [scrollLoop].
  - intros j Hj. lia.
  - destruct (heights k >? previousOf heights k) eqn:Hcmp.
    + apply Z.gtb_lt in Hcmp.
      unfold bind at 1. cbn [perform await scriptedPage settle].
      unfold bind at 1. cbn [perform await scriptedPage settle].
      unfold bind at 1. cbn [await scriptedPage scrollHeight].
      rewrite !countAction_snoc, Hk. cbn [isMeasure]. rewrite !Nat.add_0_r.
      specialize (IH (S k)
        (((h ++ [EvalScrollTo]) ++ [WaitForTimeout 2000]) ++ [EvalScrollHeight])).
      rewrite !countAction_snoc, Hk in IH. cbn [isMeasure isScroll] in IH.
      rewrite !Nat.add_0_r in IH.
      specialize (IH ltac:(lia)). cbn [previousOf] in IH.
      destruct (scrollLoop (scriptedPage heights) fuel (heights k) (heights (S k)) _)
        as [[] h' | e h' |].
      * destruct IH as (m & Hm & Hstop & Hgrow & Hs & Hms).
        exists m. repeat split; try lia; try assumption.
        intros j Hj. destruct (Nat.eq_dec j k) as [->|Hne].
        -- unfold grows. lia.
        -- apply Hgrow. lia.
      * exact IH.
      * intros j Hj. destruct (Nat.eq_dec j k) as [->|Hne].
        -- unfold grows. lia.
        -- apply IH. lia.
    + rewrite Z.gtb_ltb in Hcmp. apply Z.ltb_ge in Hcmp.
      cbn. exists k. unfold grows. repeat split; try lia.
Qed.

Lemma loadAll_run (fuel : nat) :
  match loadAll (scriptedPage heights) fuel [] with
  | Returned _ h' =>
      exists m, (m < fuel)%nat /\
                ~ grows heights m /\
                (forall j, (j < m)%nat -> grows heights j) /\
                countAction isScroll h' = m /\
                countAction isMeasure h' = S m
  | Thrown _ _ => False
  | Pending => forall j, (j < fuel)%nat -> grows heights j
  end.
Proof.
  unfold loadAll, bind. cbn [await scriptedPage scrollHeight].
  pose proof (scrollLoop_run fuel O [EvalScrollHeight] eq_refl) as H.
  cbn [previousOf app countAction filter isMeasure List.length] in *.
  destruct (scrollLoop (scriptedPage heights) fuel 0 (heights 0) [EvalScrollHeight])
    as [[] h' | e h' |].
  - destruct H as (m & Hm & Hstop & Hgrow & Hs & Hms).
    exists m. repeat split; try lia; try assumption.
    + intros j Hj. apply Hgrow. lia.
    + rewrite Hs. cbn. lia.
  - exact H.
  - intros j Hj. apply H. lia.
Qed.
End ScrollLoop.

(** C4 (as amended).  On a page that answers the height measurements
    with [heights 0, heights 1, ...], the loop stops exactly at the first
    measurement that does not strictly exceed the height it is compared
    with (the previous measurement, or 0 for the first one), whether equal
    or smaller, having scrolled once per earlier measurement; while every
    measurement grows it does not stop; for the script [100, 200, 200]
    it makes exactly 2 scroll iterations. *)
Theorem scroll_loop_stops_at_first_non_growth :
  forall heights : nat -> Z,
    (forall (m fuel : nat),
        (m < fuel)%nat ->
        (forall j, (j < m)%nat -> grows heights j) ->
        ~ grows heights m ->
        exists h',
          loadAll (scriptedPage heights) fuel [] = Returned tt h' /\
          countAction isScroll h' = m) /\
    (forall (fuel : nat) (h' : history),
        loadAll (scriptedPage heights) fuel [] = Returned tt h' ->
        ~ grows heights (countAction isScroll h') /\
        forall j, (j < countAction isScroll h')%nat -> grows heights j) /\
    ((forall j, grows heights j) ->
     forall fuel, loadAll (scriptedPage heights) fuel [] = Pending) /\
    (forall fuel, (2 < fuel)%nat ->
       exists h',
         loadAll (scriptedPage (script [100; 200; 200])) fuel []
           = Returned tt h' /\
         countAction isScroll h' = 2%nat).
Proof.
  intros heights.
  assert (Hfirst : forall (hs : nat -> Z) (m fuel : nat),
             (m < fuel)%nat ->
             (forall j, (j < m)%nat -> grows hs j) ->
             ~ grows hs m ->
             exists h',
               loadAll (scriptedPage hs) fuel [] = Returned tt h' /\
               countAction isScroll h' = m).
  { intros hs m fuel Hm Hgrow Hstop.
    pose proof (loadAll_run hs fuel) as H.
    destruct (loadAll (scriptedPage hs) fuel []) as [[] h' | e h' |].
    - destruct H as (m' & Hm' & Hstop' & Hgrow' & Hs & _).
      exists h'. split; [reflexivity|].
      destruct (Nat.lt_trichotomy m' m) as [Hlt | [Heq | Hgt]].
      + exfalso. apply Hstop'. now apply Hgrow.
      + congruence.
      + exfalso. apply Hstop. now apply Hgrow'.
    - contradiction.
    - exfalso. apply Hstop. now apply H. }
  split; [apply Hfirst|]. split; [|split].
  - intros fuel h' Hrun.
    pose proof (loadAll_run heights fuel) as H. rewrite Hrun in H.
    destruct H as (m & _ & Hstop & Hgrow & Hs & _).
    rewrite Hs. now split.
  - intros Hall fuel.
    pose proof (loadAll_run heights fuel) as H.
    destruct (loadAll (scriptedPage heights) fuel []) as [[] h' | e h' |].
    + destruct H as (m & _ & Hstop & _). exfalso. apply Hstop, Hall.
    + contradiction.
    + reflexivity.
  - intros fuel Hfuel. apply Hfirst; [exact Hfuel| |].
    + intros j Hj. destruct j as [|[|j]]; unfold grows; cbn; lia.
    + unfold grows. cbn. lia.
Qed.

Lemma scroll_loop_stops_at_first_non_growth_witness :
  (2 < 3)%nat /\
  (forall j, (j < 2)%nat -> grows (script [100; 200; 200]) j) /\
  ~ grows (script [100; 200; 200]) 2 /\
  exists h',
    loadAll (scriptedPage (script [100; 200; 200])) 3 [] = Returned tt h' /\
    countAction isScroll h' = 2%nat.
Proof.
  assert (H1 : (2 < 3)%nat) by lia.
  assert (H2 : forall j, (j < 2)%nat -> grows (script [100; 200; 200]) j)
    by (intros j Hj; destruct j as [|[|j]]; unfold grows; cbn; lia).
  assert (H3 : ~ grows (script [100; 200; 200]) 2)
    by (unfold grows; cbn; lia).
  split; [exact H1|]. split; [exact H2|]. split; [exact H3|].
  exact (proj1 (scroll_loop_stops_at_first_non_growth (script [100; 200; 200]))
           2%nat 3%nat H1 H2 H3).
Defined.

(** C4 as stated fails: on a page whose height shrinks from 100 to 50 the
    loop stops after one scroll, although no two consecutive measurements
    of the run are equal. *)
Lemma scroll_loop_stops_on_shrinking_page :
  exists h',
    loadAll (scriptedPage (script [100; 50])) 3 [] = Returned tt h' /\
    countAction isScroll h' = 1%nat /\
    countAction isMeasure h' = 2%nat /\
    forall j, (S j < countAction isMeasure h')%nat ->
              script [100; 50] (S j) <> script [100; 50] j.
Proof.
  eexists. split; [vm_compute; reflexivity|].
  split; [reflexivity|]. split; [reflexivity|].
  intros j Hj. cbn in Hj. destruct j as [|j]; [cbn; lia | lia].
Qed.

(* ================================================================= *)
(** ** sendToWebhook *)

(** Whatever the endpoint does, one request is made, it is a POST with a
    JSON content type, and the call settles. *)
Lemma sendToWebhook_single_post (env : Environment) (cfg : Config)
      (data : WebhookData) (h : history) :
  exists tail,
    settledHistory (sendToWebhook env cfg data h)
      = Some (h ++ Fetch (WEBHOOK_URL cfg) "POST" "application/json" data
                :: tail) /\
    countAction isFetch tail = O.
Proof.
  unfold sendToWebhook, tryCatch, bind, await, console_error, effect, throw, ret.
  destruct (respond env _ h) as [resp | e]; cbn.
  - destruct (text resp) as [body | e]; cbn.
    + destruct (ok resp); cbn;
        repeat rewrite <- app_assoc; cbn; eexists; split; reflexivity.
    + repeat rewrite <- app_assoc; cbn; eexists; split; reflexivity.
  - repeat rewrite <- app_assoc; cbn; eexists; split; reflexivity.
Qed.

(** *** Counting the requests of a computation *)

Lemma countAction_app (p : action -> bool) (h1 h2 : history) :
  countAction p (h1 ++ h2) = (countAction p h1 + countAction p h2)%nat.
Proof.
  unfold countAction. now rewrite filter_app, length_app.
Qed.

Section Fetches.
Context {A B : Type}.

Lemma fetches_ret (a : A) : fetches 0 (ret a).
Proof. intros h. cbn. exists []. now rewrite app_nil_r. Qed.

Lemma fetches_throw (e : exn) : fetches 0 (@throw history A e).
Proof. intros h. cbn. exists []. now rewrite app_nil_r. Qed.

Lemma fetches_weaken (n m : nat) (c : M history A) :
  (n <= m)%nat -> fetches n c -> fetches m c.
Proof.
  intros Hle Hc h. specialize (Hc h).
  destruct (settledHistory (c h)); [|exact I].
  destruct Hc as (t & -> & Hn). exists t. split; [reflexivity|lia].
Qed.

Lemma fetches_bind (n m : nat) (c : M history A) (k : A -> M history B) :
  fetches n c -> (forall a, fetches m (k a)) -> fetches (n + m) (bind c k).
Proof.
  intros Hc Hk h. specialize (Hc h). unfold bind.
  destruct (c h) as [a h1 | e h1 |]; cbn in *.
  - destruct Hc as (t1 & -> & H1). specialize (Hk a (h ++ t1)).
    destruct (settledHistory (k a (h ++ t1))); [|exact I].
    destruct Hk as (t2 & -> & H2). exists (t1 ++ t2).
    rewrite app_assoc, countAction_app. split; [reflexivity|lia].
  - destruct Hc as (t1 & -> & H1). exists t1. split; [reflexivity|lia].
  - exact I.
Qed.

Lemma fetches_await (act : action) (oracle : history -> outcome A) :
  isFetch act = false -> fetches 0 (await act oracle).
Proof.
  intros Hact h. unfold await.
  destruct (oracle h); cbn; exists [act];
    (split; [reflexivity|]); unfold countAction; cbn; now rewrite Hact.
Qed.

Lemma fetches_observe (act : action) (oracle : history -> A) :
  isFetch act = false -> fetches 0 (observe act oracle).
Proof.
  intros Hact h. cbn. exists [act].
  split; [reflexivity|]. unfold countAction; cbn; now rewrite Hact.
Qed.
End Fetches.

Lemma fetches_then {A B} (n : nat) (c : M history A) (k : A -> M history B) :
  fetches 0 c -> (forall a, fetches n (k a)) -> fetches n (bind c k).
Proof.
  intros Hc Hk. change n with (0 + n)%nat. now apply fetches_bind.
Qed.

Lemma fetches_log (args : list logarg) :
  fetches 0 (effect (console_log args)).
Proof.
  intros h. cbn. exists [ConsoleLog args]. now split.
Qed.

Lemma fetches_sleep (ms : Z) : fetches 0 (effect (setTimeout ms)).
Proof.
  intros h. cbn. exists [SetTimeout ms]. now split.
Qed.

Lemma fetches_console_error (args : list logarg) :
  fetches 0 (console_error args).
Proof.
  intros h. cbn. exists [ConsoleError args]. now split.
Qed.

Lemma fetches_tryCatch {A} (n : nat) (body : M history A)
      (handler : exn -> M history A) :
  fetches n body -> (forall e, fetches 0 (handler e)) ->
  fetches n (tryCatch body handler).
Proof.
  intros Hb Hh h. specialize (Hb h). unfold tryCatch.
  destruct (body h) as [a h1 | e h1 |]; cbn in *; [exact Hb| |exact I].
  destruct Hb as (t1 & -> & H1). specialize (Hh e (h ++ t1)).
  destruct (settledHistory (handler e (h ++ t1))); [|exact I].
  destruct Hh as (t2 & -> & H2). exists (t1 ++ t2).
  rewrite app_assoc, countAction_app. split; [reflexivity|lia].
Qed.

Lemma fetches_tryFinally {A} (n : nat) (body : M history A)
      (cleanup : M history unit) :
  fetches n body -> fetches 0 cleanup -> fetches n (tryFinally body cleanup).
Proof.
  intros Hb Hc h. specialize (Hb h). unfold tryFinally.
  destruct (body h) as [a h1 | e h1 |]; cbn in *; [| |exact I];
    destruct Hb as (t1 & -> & H1); specialize (Hc (h ++ t1));
    destruct (cleanup (h ++ t1)) as [[] h2 | e2 h2 |]; cbn in *;
    try exact I;
    destruct Hc as (t2 & -> & H2); exists (t1 ++ t2);
    rewrite app_assoc, countAction_app; (split; [reflexivity|lia]).
Qed.

Lemma fetches_retry_loop {A} (fn : M history A) (maxRetries delay : Z)
      (fuel : nat) :
  fetches 0 fn ->
  forall i, fetches 0 (retry_loop fn maxRetries delay fuel i).
Proof.
  intros Hfn. induction fuel as [|fuel IH]; intros i; cbn [retry_loop].
  - intros h. exact I.
  - destruct (i <? maxRetries); [|apply fetches_ret].
    apply fetches_tryCatch.
    + apply fetches_then; [exact Hfn|]. intros a. apply fetches_ret.
    + intros e. apply fetches_then; [apply fetches_log|]. intros _.
      destruct (i =? maxRetries - 1); [apply fetches_throw|].
      apply fetches_then; [apply fetches_sleep|]. intros _. apply IH.
Qed.

Section FetchesOfScript.
Variable env : Environment.
Variable cfg : Config.

Lemma fetches_perform (act : action) :
  isFetch act = false -> fetches 0 (perform env act).
Proof. intros H. now apply fetches_await. Qed.

Lemma fetches_login : fetches 0 (login env cfg).
Proof.
  unfold login.
  repeat (apply fetches_then; [now apply fetches_perform | intros _]).
  now apply fetches_perform.
Qed.

Lemma fetches_retry_login :
  fetches 0 (retry_default (login env cfg) ;; ret tt).
Proof.
  apply fetches_then; [|intros _; apply fetches_ret].
  apply fetches_retry_loop, fetches_login.
Qed.

Lemma fetches_authenticate : fetches 0 (authenticate env cfg).
Proof.
  unfold authenticate.
  destruct (truthy (LT_COOKIE cfg)).
  - apply fetches_then; [apply fetches_log | intros _].
    destruct (LT_COOKIE cfg) as [cookie|]; [|apply fetches_ret].
    apply fetches_tryCatch.
    + unfold cookieAttempt.
      apply fetches_then; [now apply fetches_perform | intros _].
      apply fetches_then; [now apply fetches_perform | intros _].
      apply fetches_then; [now apply fetches_observe | intros url].
      apply fetches_then; [|intros _; apply fetches_log].
      destruct (JsString.includes "/login" url);
        [apply fetches_throw | apply fetches_ret].
    + intros e. unfold cookieFallback.
      apply fetches_then; [apply fetches_log | intros _].
      destruct (credentialsMissing cfg);
        [apply fetches_throw | apply fetches_retry_login].
  - apply fetches_then; [apply fetches_log | intros _].
    destruct (credentialsMissing cfg);
      [apply fetches_throw | apply fetches_retry_login].
Qed.

Lemma fetches_scrollLoop (fuel : nat) :
  forall previousHeight currentHeight,
    fetches 0 (scrollLoop env fuel previousHeight currentHeight).
Proof.
  induction fuel as [|fuel IH]; intros previousHeight currentHeight;
    cbn [scrollLoop].
  - intros h. exact I.
  - destruct (currentHeight >? previousHeight); [|apply fetches_ret].
    apply fetches_then; [now apply fetches_perform | intros _].
    apply fetches_then; [now apply fetches_perform | intros _].
    apply fetches_then; [now apply fetches_await | intros height].
    apply IH.
Qed.

Lemma fetches_loadAll (fuel : nat) : fetches 0 (loadAll env fuel).
Proof.
  unfold loadAll.
  apply fetches_then; [now apply fetches_await | intros height].
  apply fetches_scrollLoop.
Qed.

Lemma fetches_sendToWebhook (data : WebhookData) :
  fetches 1 (sendToWebhook env cfg data).
Proof.
  intros h.
  destruct (sendToWebhook_single_post env cfg data h) as (tail & -> & Htail).
  eexists. split; [reflexivity|].
  change (?x :: tail) with ([x] ++ tail). rewrite countAction_app, Htail.
  cbn. lia.
Qed.

(** A run of [main] sends at most one request to the webhook: the
    delivery call of line 204 is not wrapped in [retry]. *)
Lemma fetches_main (fuel : nat) : fetches 1 (main env cfg fuel).
Proof.
  unfold main.
  apply fetches_then; [apply fetches_log | intros _].
  destruct (negb (truthy (WEBHOOK_URL cfg)));
    [apply (fetches_weaken 0 1); [lia | apply fetches_throw]|].
  apply fetches_then; [now apply fetches_observe | intros date].
  apply fetches_then; [apply fetches_log | intros _].
  do 3 (apply fetches_then; [now apply fetches_perform | intros _]).
  apply fetches_tryFinally; [|now apply fetches_perform].
  apply fetches_tryCatch.
  - unfold scrape.
    apply fetches_then; [apply fetches_authenticate | intros _].
    apply fetches_then; [apply fetches_log | intros _].
    apply fetches_then;
      [apply fetches_retry_loop, fetches_loadAll | intros _].
    apply fetches_then; [apply fetches_log | intros _].
    apply fetches_then; [now apply fetches_await | intros root].
    apply fetches_then; [apply fetches_log | intros _].
    change 1%nat with (1 + 0)%nat.
    apply fetches_bind; [apply fetches_sendToWebhook|].
    intros _. apply fetches_log.
  - intros e.
    apply fetches_then; [apply fetches_console_error | intros _].
    apply fetches_throw.
Qed.
End FetchesOfScript.

(** C5.  [sendToWebhook] makes one request, a POST, and nothing it does
    afterwards is another request.  When the endpoint answers with status
    [status resp] and body text [body], the body has been read whatever
    the status, and then: on a 2xx status the call returns the body text;
    on any other status it throws an error whose message carries the
    status and the body text.  A whole run of [main] sends at most one
    request: the delivery is not retried. *)
Theorem sendToWebhook_settles_on_status :
  forall (env : Environment) (cfg : Config) (data : WebhookData) (h : history),
    let request := Fetch (WEBHOOK_URL cfg) "POST" "application/json" data in
    (exists tail,
        settledHistory (sendToWebhook env cfg data h)
          = Some (h ++ request :: tail) /\
        countAction isFetch tail = O) /\
    (forall (resp : Response) (body : string),
        respond env request h = Fulfilled resp ->
        text resp = Fulfilled body ->
        (200 <= status resp <= 299 ->
         sendToWebhook env cfg data h
           = Returned body
               (h ++ [request; ResponseText; webhookStatusLine resp body])) /\
        (~ 200 <= status resp <= 299 ->
         sendToWebhook env cfg data h
           = Thrown (webhookFailed resp body)
               (h ++ [request; ResponseText; webhookStatusLine resp body;
                      ConsoleError [LStr "Webhook error:";
                                    LErr (webhookFailed resp body)]]))) /\
    (forall fuel : nat, fetches 1 (main env cfg fuel)).
Proof.
  intros env cfg data h request.
  split; [apply sendToWebhook_single_post|].
  split; [|intros fuel; apply fetches_main].
  intros resp body Hresp Hbody.
  unfold sendToWebhook, tryCatch, bind, await, console_error, effect, throw, ret.
  fold request. rewrite Hresp, Hbody. cbn [console_log browser_runtime].
  unfold webhookStatusLine, webhookFailed, ok.
  split; intros Hstatus.
  - replace ((200 <=? status resp) && (status resp <=? 299)) with true
      by (symmetry; apply andb_true_iff; split; apply Z.leb_le; lia).
    cbn. repeat rewrite <- app_assoc. reflexivity.
  - replace ((200 <=? status resp) && (status resp <=? 299)) with false.
    + cbn. repeat rewrite <- app_assoc. reflexivity.
    + symmetry. apply andb_false_iff.
      destruct (Z.leb_spec 200 (status resp)); [right|left; reflexivity].
      apply Z.leb_gt. lia.
Qed.

Lemma sendToWebhook_settles_on_status_witness :
  let data := mkWebhookData "2024-01-01" [] in
  let resp := mkResponse 500 (Fulfilled "error") in
  let request :=
    Fetch (WEBHOOK_URL cookieOnlyConfig) "POST" "application/json" data in
  respond failingWebhook request [] = Fulfilled resp /\
  text resp = Fulfilled "error" /\
  ~ 200 <= status resp <= 299 /\
  sendToWebhook failingWebhook cookieOnlyConfig data []
    = Thrown (Error "Webhook failed: 500 error")
        ([] ++ [request; ResponseText; webhookStatusLine resp "error";
                ConsoleError [LStr "Webhook error:";
                              LErr (webhookFailed resp "error")]]).
Proof.
  intros data resp request.
  assert (H1 : respond failingWebhook request [] = Fulfilled resp)
    by reflexivity.
  assert (H2 : text resp = Fulfilled "error") by reflexivity.
  assert (H3 : ~ 200 <= status resp <= 299) by (cbn; lia).
  split; [exact H1|]. split; [exact H2|]. split; [exact H3|].
  exact (proj2 (proj1 (proj2 (sendToWebhook_settles_on_status failingWebhook
                                cookieOnlyConfig data []))
                  resp "error" H1 H2) H3).
Defined.

(* ================================================================= *)
(** ** main: start-up, authentication and release of the browser *)

(** Once the page exists, a run is the guarded block started from the
    start-up history. *)
Lemma main_after_startup (env : Environment) (cfg : Config) (fuel : nat) :
  truthy (WEBHOOK_URL cfg) = true ->
  startupSucceeds env ->
  main env cfg fuel [] =
  tryFinally
    (tryCatch
       (scrape env cfg fuel
          (today env [ConsoleLog [LStr "Starting Linktree insights scraper..."]]))
       scrapingFailed)
    (perform env BrowserClose)
    (startup env).
Proof.
  intros Hurl (Hlaunch & Hcontext & Hpage).
  unfold main. rewrite Hurl. cbn [negb].
  unfold bind at 1. cbn [effect console_log browser_runtime app].
  unfold bind at 1. cbn [getJSTDate observe app].
  unfold bind at 1. cbn [effect console_log browser_runtime app].
  cbn [startup firstn] in Hlaunch, Hcontext, Hpage.
  unfold bind at 1. unfold perform at 1, await at 1. rewrite Hlaunch. cbn [app].
  unfold bind at 1. unfold perform at 1, await at 1. rewrite Hcontext. cbn [app].
  unfold bind at 1. unfold perform at 1, await at 1. rewrite Hpage. cbn [app].
  reflexivity.
Qed.

(** Every settled run that got as far as the page ends with the call
    that closes the browser. *)
Lemma main_closes_browser_once_page_exists
      (env : Environment) (cfg : Config) (fuel : nat) (h' : history) :
  truthy (WEBHOOK_URL cfg) = true ->
  startupSucceeds env ->
  settledHistory (main env cfg fuel []) = Some h' ->
  exists h, h' = h ++ [BrowserClose].
Proof.
  intros Hurl Hstart. rewrite main_after_startup by assumption.
  unfold tryFinally, perform, await.
  destruct (tryCatch _ _ _) as [[] h1 | e h1 |]; cbn; [| |discriminate];
    destruct (settle env BrowserClose h1); cbn; intros [= <-]; now exists h1.
Qed.

(** A rejected [browser.newContext()] ends the run at once: the error
    propagates and the last recorded call is the failed one, with the
    browser launched before it. *)
Lemma main_throws_at_rejected_context
      (env : Environment) (cfg : Config) (fuel : nat) (e : exn) :
  truthy (WEBHOOK_URL cfg) = true ->
  settle env Launch (firstn 3 (startup env)) = Fulfilled tt ->
  settle env NewContext (firstn 4 (startup env)) = Rejected e ->
  main env cfg fuel [] = Thrown e (firstn 5 (startup env)).
Proof.
  intros Hurl Hlaunch Hcontext.
  unfold main. rewrite Hurl. cbn [negb].
  unfold bind at 1. cbn [effect console_log browser_runtime app].
  unfold bind at 1. cbn [getJSTDate observe app].
  unfold bind at 1. cbn [effect console_log browser_runtime app].
  cbn [startup firstn] in Hlaunch, Hcontext.
  unfold bind at 1. unfold perform at 1, await at 1. rewrite Hlaunch. cbn [app].
  unfold bind at 1. unfold perform at 1, await at 1. rewrite Hcontext.
  reflexivity.
Qed.

(** C8.  When [browser.newContext()] (or [context.newPage()]) fails, the
    run throws that error with the browser launched and never closed: the
    two calls sit between [chromium.launch] and the [try] block whose
    [finally] closes the browser. *)
Theorem main_leaves_browser_open_when_context_creation_fails :
  forall fuel : nat,
    main contextCreationFails cookieOnlyConfig fuel []
      = Thrown (mkExn "Error" "browser.newContext failed")
          [ConsoleLog [LStr "Starting Linktree insights scraper..."];
           GetJSTDate;
           ConsoleLog [LStr "Today: 2024-01-01"];
           Launch; NewContext] /\
    (exists e h,
        main pageCreationFails cookieOnlyConfig fuel [] = Thrown e h /\
        countAction isLaunchAction h = 1%nat /\
        countAction isClose h = 0%nat).
Proof.
  intros fuel. split; [reflexivity|].
  eexists. eexists. split; [reflexivity|]. split; reflexivity.
Qed.

(** *** Cookie authentication and its fallback *)

(** Each of these failures makes the [try] block of lines 104-114 throw,
    and the block throws in no other way. *)
Lemma cookieAttempt_throws_iff (env : Environment) (cfg : Config)
      (cookie : string) (h : history) (e : exn) (h' : history) :
  cookieAttempt env cookie h = Thrown e h' <-> cookieFailure env cookie h e h'.
Proof.
  unfold cookieAttempt, bind, perform, await, observe, throw, ret, effect.
  split.
  - destruct (settle env (AddCookies _) h) as [[]|e1] eqn:H1.
    + destruct (settle env (Goto _) _) as [[]|e2] eqn:H2.
      * destruct (JsString.includes _ _) eqn:H3.
        -- intros [= <- <-]. now apply login_redirect.
        -- discriminate.
      * intros [= <- <-]. now apply navigation_rejected.
    + intros [= <- <-]. now apply injection_rejected.
  - intros Hf. destruct Hf as [e H1 | e h1 H1 H2 | h1 h2 H1 H2 H3].
    + now rewrite H1.
    + rewrite H1. subst h1. now rewrite H2.
    + rewrite H1. subst h2 h1. rewrite H2, H3. reflexivity.
Qed.

(** C10.  With a cookie configured, whatever makes the cookie attempt
    throw (a rejected cookie injection, a rejected navigation, or an
    observed login redirect), the fallback is entered: without a complete
    credential pair the authentication stage throws the no-fallback error,
    and the run does nothing more than log it, close the browser and
    throw it again; with credentials, the stage goes on with the retried
    login sequence. *)
Theorem cookie_failure_falls_back_to_login :
  forall (env : Environment) (cfg : Config) (cookie : string)
         (h : history) (e : exn) (h1 : history),
    LT_COOKIE cfg = Some cookie ->
    truthy (Some cookie) = true ->
    cookieFailure env cookie
      (h ++ [ConsoleLog [LStr "Using cookie authentication..."]]) e h1 ->
    (credentialsMissing cfg = true ->
     authenticate env cfg h = Thrown noFallback (h1 ++ [fallbackLine e])) /\
    (credentialsMissing cfg = false ->
     authenticate env cfg h
       = (retry_default (login env cfg) ;; ret tt) (h1 ++ [fallbackLine e])) /\
    (credentialsMissing cfg = true ->
     truthy (WEBHOOK_URL cfg) = true ->
     startupSucceeds env ->
     h = startup env ->
     forall fuel,
       let h2 := h1 ++ [fallbackLine e;
                        ConsoleError [LStr "Scraping failed:"; LErr noFallback]] in
       main env cfg fuel [] = (perform env BrowserClose ;; throw noFallback) h2).
Proof.
  intros env cfg cookie h e h1 Hcookie Htruthy Hfail.
  apply (cookieAttempt_throws_iff env cfg) in Hfail.
  assert (Hauth : authenticate env cfg h
                  = cookieFallback env cfg e h1).
  { unfold authenticate. rewrite Hcookie, Htruthy.
    unfold bind at 1. cbn [effect console_log browser_runtime].
    unfold tryCatch. now rewrite Hfail. }
  assert (Hmissing : credentialsMissing cfg = true ->
                     authenticate env cfg h
                     = Thrown noFallback (h1 ++ [fallbackLine e])).
  { intros Hm. rewrite Hauth. unfold cookieFallback, bind.
    cbn [effect console_log browser_runtime]. now rewrite Hm. }
  split; [exact Hmissing|]. split.
  - intros Hm. rewrite Hauth. unfold cookieFallback.
    unfold bind at 1. cbn [effect console_log browser_runtime].
    now rewrite Hm.
  - intros Hm Hurl Hstart -> fuel h2.
    rewrite main_after_startup by assumption.
    unfold tryFinally, tryCatch, scrape.
    unfold bind at 1. rewrite (Hmissing Hm).
    unfold scrapingFailed, bind, console_error, effect, throw, perform, await.
    subst h2. rewrite <- app_assoc. cbn [app].
    destruct (settle env BrowserClose _); reflexivity.
Qed.

Lemma cookie_failure_falls_back_to_login_witness :
  let env := navigationTimesOut in
  let cfg := cookieOnlyConfig in
  let e := mkExn "TimeoutError" "page.goto: Timeout exceeded" in
  let h := startup env in
  let h1 := ((h ++ [ConsoleLog [LStr "Using cookie authentication..."]])
               ++ [AddCookies (parseCookies "session=abc")])
              ++ [Goto "https://linktr.ee/admin/links"] in
  let h2 := h1 ++ [fallbackLine e;
                   ConsoleError [LStr "Scraping failed:"; LErr noFallback]] in
  LT_COOKIE cfg = Some "session=abc" /\
  truthy (Some "session=abc") = true /\
  cookieFailure env "session=abc"
    (h ++ [ConsoleLog [LStr "Using cookie authentication..."]]) e h1 /\
  credentialsMissing cfg = true /\
  truthy (WEBHOOK_URL cfg) = true /\
  startupSucceeds env /\
  authenticate env cfg h = Thrown noFallback (h1 ++ [fallbackLine e]) /\
  main env cfg 5 [] = (perform env BrowserClose ;; throw noFallback) h2 /\
  main env cfg 5 [] = Thrown noFallback (h2 ++ [BrowserClose]).
Proof.
  intros env cfg e h h1 h2.
  assert (H1 : LT_COOKIE cfg = Some "session=abc") by reflexivity.
  assert (H2 : truthy (Some "session=abc") = true) by reflexivity.
  assert (H3 : cookieFailure env "session=abc"
                 (h ++ [ConsoleLog [LStr "Using cookie authentication..."]])
                 e h1)
    by (apply navigation_rejected; reflexivity).
  assert (H4 : credentialsMissing cfg = true) by reflexivity.
  assert (H5 : truthy (WEBHOOK_URL cfg) = true) by reflexivity.
  assert (H6 : startupSucceeds env) by (repeat split).
  repeat (split; [assumption|]).
  split; [|split].
  - exact (proj1 (cookie_failure_falls_back_to_login env cfg "session=abc"
                    h e h1 H1 H2 H3) H4).
  - exact (proj2 (proj2 (cookie_failure_falls_back_to_login env cfg
                           "session=abc" h e h1 H1 H2 H3))
             H4 H5 H6 eq_refl 5%nat).
  - reflexivity.
Defined.

(* ================================================================= *)
(** ** The extractor *)

Lemma truthy_not_empty (v : jsval) : toBoolean v = true -> v <> JsString "".
Proof.
  intros H ->. discriminate.
Qed.

Lemma extractCard_valid (links : list LinkRecord) (card : node) :
  Forall validRecord links -> Forall validRecord (extractCard links card).
Proof.
  intros Hall. unfold extractCard.
  destruct (toBoolean (titleOf card)) eqn:Ht; cbn [andb]; [|assumption].
  destruct (toBoolean (urlOf card)) eqn:Hu; [|assumption].
  apply Forall_app. split; [assumption|].
  constructor; [|constructor].
  repeat split; cbn; auto using truthy_not_empty.
Qed.

Lemma fold_extractCard_valid (cards : list node) :
  forall links,
    Forall validRecord links ->
    Forall validRecord (fold_left extractCard cards links).
Proof.
  induction cards as [|card cards IH]; intros links Hall; cbn; [assumption|].
  apply IH. now apply extractCard_valid.
Qed.

(** The loop keeps the cards whose title and url are both truthy, in
    order, one record per kept card: it filters, it does not fill in
    defaults. *)
Lemma fold_extractCard_filter (cards : list node) :
  forall links,
    fold_left extractCard cards links
    = links ++ map recordOf (filter keepsCard cards).
Proof.
  induction cards as [|card cards IH]; intros links; cbn [fold_left filter].
  - cbn. now rewrite app_nil_r.
  - rewrite IH. unfold extractCard, keepsCard at 2.
    destruct (toBoolean (titleOf card) && toBoolean (urlOf card)).
    + cbn [map]. rewrite <- app_assoc. reflexivity.
    + reflexivity.
Qed.

(** C2.  Whatever the document, every record the extractor emits has a
    truthy title and a truthy url, so neither is the empty string; the
    records are those of the cards that have both, in document order; and
    a document in which no element matches the card selectors yields the
    empty sequence. *)
Theorem extract_never_emits_empty_title_or_url :
  forall root : node,
    Forall validRecord (extract root) /\
    extract root
      = map recordOf
            (filter keepsCard (documentQuerySelectorAll cardSelectors root)) /\
    (documentQuerySelectorAll cardSelectors root = [] -> extract root = []).
Proof.
  intros root. split; [|split].
  - unfold extract. apply fold_extractCard_valid. constructor.
  - unfold extract. now rewrite fold_extractCard_filter.
  - intros Hnone. unfold extract. now rewrite Hnone.
Qed.

Lemma extract_never_emits_empty_title_or_url_witness :
  documentQuerySelectorAll cardSelectors emptyDashboard = [] /\
  extract emptyDashboard = [].
Proof.
  assert (H : documentQuerySelectorAll cardSelectors emptyDashboard = [])
    by reflexivity.
  split; [exact H|].
  exact (proj2 (proj2 (extract_never_emits_empty_title_or_url emptyDashboard))
           H).
Defined.

(** *** Card selection *)

(** C7 as stated fails: the first selector has a match, and yet the
    element that only the third selector matches is among the cards (and
    its record is extracted), where a first-match-wins selection keeps the
    [data-testid] card alone. *)
Lemma cards_include_matches_of_later_selectors :
  documentQuerySelectorAll [[AttrEquals "data-testid" "link-card"]] mixedDashboard
    = [testidCard] /\
  matches [[AttrEquals "data-testid" "link-card"]] classOnlyCard = false /\
  matches [[ClassSel "link-card"]] classOnlyCard = false /\
  matches [[AttrContains "class" "link-card"]] classOnlyCard = true /\
  documentQuerySelectorAll cardSelectors mixedDashboard
    = [testidCard; classOnlyCard] /\
  firstMatchingSelector cardSelectors mixedDashboard = [testidCard] /\
  extract mixedDashboard
    = [mkLink (JsString "Shop") (JsString "https://shop.example/") 0;
       mkLink (JsString "Blog") (JsString "https://blog.example/") 0].
Proof.
  repeat split; reflexivity.
Qed.

(** C7 (as amended).  The cards are the elements of the document, in
    document order, that match at least one of the three selectors: an
    element is a card exactly when one of the three single-selector
    queries finds it, whether or not an earlier selector has matches. *)
Theorem cards_are_union_of_selector_matches :
  forall (root : node),
    let byTestid := [AttrEquals "data-testid" "link-card"] in
    let byClass := [ClassSel "link-card"] in
    let byClassSubstring := [AttrContains "class" "link-card"] in
    documentQuerySelectorAll cardSelectors root
      = filter (fun el => matchesCompound byTestid el
                          || matchesCompound byClass el
                          || matchesCompound byClassSubstring el)
               (allElements root) /\
    (forall el,
        In el (documentQuerySelectorAll cardSelectors root) <->
        In el (documentQuerySelectorAll [byTestid] root) \/
        In el (documentQuerySelectorAll [byClass] root) \/
        In el (documentQuerySelectorAll [byClassSubstring] root)).
Proof.
  intros root byTestid byClass byClassSubstring.
  assert (Hm : forall el,
             matches cardSelectors el
             = matchesCompound byTestid el || matchesCompound byClass el
               || matchesCompound byClassSubstring el).
  { intros el. unfold matches, cardSelectors. cbn [List.existsb].
    now rewrite orb_false_r, orb_assoc. }
  split.
  - unfold documentQuerySelectorAll. apply filter_ext. exact Hm.
  - intros el. unfold documentQuerySelectorAll.
    rewrite !filter_In, Hm.
    unfold matches. cbn [List.existsb]. rewrite !orb_false_r.
    rewrite !orb_true_iff. tauto.
Qed.

(** *** Clicks *)

Lemma dropWhile_skips_prefix (f : ascii -> bool) (pre rest : string) :
  JsString.forallb f pre = true ->
  JsString.dropWhile f (pre ++ rest)%string = JsString.dropWhile f rest.
Proof.
  induction pre as [|c pre IH]; cbn; [reflexivity|].
  intros H. apply andb_true_iff in H as [Hc Hpre].
  rewrite Hc. now apply IH.
Qed.

Lemma takeWhile_digit_run (ds post : string) :
  JsString.forallb JsString.isDigit ds = true ->
  endsDigitRun post ->
  JsString.takeWhile JsString.isDigit (ds ++ post)%string = ds.
Proof.
  intros Hds Hpost. induction ds as [|c ds IH]; cbn in *.
  - destruct post as [|p post]; cbn in *; [reflexivity|]. now rewrite Hpost.
  - apply andb_true_iff in Hds as [Hc Hds]. rewrite Hc. f_equal. now apply IH.
Qed.

(** The capture group of [/(\d+)/] is the leftmost maximal digit run. *)
Lemma firstDigits_leftmost_run (pre ds post : string) :
  JsString.forallb notDigit pre = true ->
  JsString.forallb JsString.isDigit ds = true ->
  ds <> EmptyString ->
  endsDigitRun post ->
  firstDigits (pre ++ ds ++ post)%string = Some ds.
Proof.
  intros Hpre Hds Hne Hpost. unfold firstDigits.
  fold notDigit. rewrite dropWhile_skips_prefix by assumption.
  destruct ds as [|c ds]; [contradiction|].
  cbn [String.append JsString.dropWhile].
  pose proof Hds as Hds'. cbn in Hds'. apply andb_true_iff in Hds' as [Hc _].
  unfold notDigit at 1. rewrite Hc. cbn [negb].
  change (String c (ds ++ post)%string) with (String c ds ++ post)%string.
  now rewrite takeWhile_digit_run.
Qed.

Lemma firstDigits_no_digit (s : string) :
  JsString.existsb JsString.isDigit s = false -> firstDigits s = None.
Proof.
  unfold firstDigits. induction s as [|c s IH]; cbn; [reflexivity|].
  intros H. apply orb_false_iff in H as [Hc Hs]. rewrite Hc. cbn. now apply IH.
Qed.

(** With line 174 repaired as in [clicksOf]: when a card has a click
    element, its clicks are the number value of the first contiguous
    digit group of that element's text, exact when the group denotes an
    integer below 2^53 (the text [1,234 clicks] gives 1, not 1234); when
    the text has no digit, or the card has no click element, the clicks
    are 0. *)
Lemma repaired_clicks_is_first_digit_group :
  forall card : node,
    (forall (clickElement : node) (pre ds post : string),
        clickElementOf card = Some clickElement ->
        textContent clickElement = (pre ++ ds ++ post)%string ->
        JsString.forallb notDigit pre = true ->
        JsString.forallb JsString.isDigit ds = true ->
        ds <> EmptyString ->
        endsDigitRun post ->
        clicksOf card = parseInt ds /\
        (mathInt ds < 2 ^ 53 -> clicksOf card = Exactly (mathInt ds))) /\
    (forall clickElement : node,
        clickElementOf card = Some clickElement ->
        textContent clickElement = "1,234 clicks" ->
        clicksOf card = Exactly 1) /\
    (forall clickElement : node,
        clickElementOf card = Some clickElement ->
        JsString.existsb JsString.isDigit (textContent clickElement) = false ->
        clicksOf card = Exactly 0) /\
    (clickElementOf card = None -> clicksOf card = Exactly 0).
Proof.
  intros card.
  assert (Hrun : forall (clickElement : node) (pre ds post : string),
             clickElementOf card = Some clickElement ->
             textContent clickElement = (pre ++ ds ++ post)%string ->
             JsString.forallb notDigit pre = true ->
             JsString.forallb JsString.isDigit ds = true ->
             ds <> EmptyString ->
             endsDigitRun post ->
             clicksOf card = parseInt ds).
  { intros clickElement pre ds post Hel Htext Hpre Hds Hne Hpost.
    unfold clicksOf. rewrite Hel, Htext.
    now rewrite firstDigits_leftmost_run. }
  split; [|split; [|split]].
  - intros clickElement pre ds post Hel Htext Hpre Hds Hne Hpost.
    rewrite (Hrun clickElement pre ds post) by assumption.
    split; [reflexivity|]. intros Hsmall. unfold parseInt.
    apply Z.ltb_lt in Hsmall. now rewrite Hsmall.
  - intros clickElement Hel Htext.
    rewrite (Hrun clickElement "" "1" ",234 clicks");
      try reflexivity; try assumption. discriminate.
  - intros clickElement Hel Hnone. unfold clicksOf. rewrite Hel.
    now rewrite firstDigits_no_digit.
  - intros Hnone. unfold clicksOf. now rewrite Hnone.
Qed.


(* ================================================================= *)
(** * Further properties *)

(* ================================================================= *)
(** ** parseCookies: shape of the result *)

Lemma parseCookies_step_acc (cookies : list Cookie) (pair : string) :
  parseCookies_step cookies pair = cookies ++ cookiesOfSegment pair.
Proof.
  unfold cookiesOfSegment, parseCookies_step. cbv zeta.
  destruct (nth_error (JsString.split "=" (JsString.trim pair)) 0) as [n|];
    destruct (nth_error (JsString.split "=" (JsString.trim pair)) 1) as [v|];
    destruct (truthy _ && truthy _); cbn; now rewrite ?app_nil_r.
Qed.

Lemma fold_parseCookies_step (pairs : list string) :
  forall cookies,
    fold_left parseCookies_step pairs cookies
    = cookies ++ flat_map cookiesOfSegment pairs.
Proof.
  induction pairs as [|pair pairs IH]; intros cookies; cbn.
  - now rewrite app_nil_r.
  - rewrite IH, parseCookies_step_acc. now rewrite <- app_assoc.
Qed.

(** The loop of [parseCookies] handles the segments one by one. *)
Lemma parseCookies_by_segment (cookieString : string) :
  parseCookies cookieString
  = flat_map cookiesOfSegment (JsString.split ";" cookieString).
Proof.
  unfold parseCookies. now rewrite fold_parseCookies_step.
Qed.

Lemma split_length (sep : ascii) (s : string) :
  List.length (JsString.split sep s) = S (countChar sep s).
Proof.
  induction s as [|c r IH]; cbn; [reflexivity|].
  destruct (Ascii.eqb c sep); cbn; [now rewrite IH|].
  destruct (JsString.split sep r); cbn in *; congruence.
Qed.

(** No piece of a split holds the separator, and no piece holds more of
    any character than the whole string. *)
Lemma split_pieces (sep : ascii) (s : string) :
  forall piece,
    In piece (JsString.split sep s) ->
    countChar sep piece = O /\
    forall c, (countChar c piece <= countChar c s)%nat.
Proof.
  induction s as [|a r IH]; cbn; intros piece Hin.
  - destruct Hin as [<-|[]]. split; [reflexivity|]. intros c. cbn. lia.
  - destruct (Ascii.eqb a sep) eqn:Ha.
    + destruct Hin as [<-|Hin].
      * split; [reflexivity|]. intros c. cbn. lia.
      * destruct (IH piece Hin) as [H0 Hle]. split; [exact H0|].
        intros c. specialize (Hle c). lia.
    + destruct (JsString.split sep r) as [|p ps] eqn:Hsplit.
      * destruct Hin as [<-|[]]. cbn. rewrite Ha. split; [reflexivity|].
        intros c. lia.
      * destruct Hin as [<-|Hin].
        -- destruct (IH p (or_introl eq_refl)) as [H0 Hle].
           cbn. rewrite Ha, H0. split; [reflexivity|].
           intros c. specialize (Hle c). lia.
        -- destruct (IH piece (or_intror Hin)) as [H0 Hle].
           split; [exact H0|]. intros c. specialize (Hle c). lia.
Qed.

Lemma countChar_trimStart (c : ascii) (s : string) :
  (countChar c (JsString.trimStart s) <= countChar c s)%nat.
Proof.
  induction s as [|a r IH]; cbn; [lia|].
  destruct (JsString.isWhiteSpace a); cbn; lia.
Qed.

Lemma countChar_trimEnd (c : ascii) (s : string) :
  (countChar c (JsString.trimEnd s) <= countChar c s)%nat.
Proof.
  induction s as [|a r IH]; cbn; [lia|].
  destruct (JsString.isWhiteSpace a && JsString.isEmpty (JsString.trimEnd r));
    cbn; lia.
Qed.

Lemma countChar_trim (c : ascii) (s : string) :
  (countChar c (JsString.trim s) <= countChar c s)%nat.
Proof.
  unfold JsString.trim.
  pose proof (countChar_trimEnd c (JsString.trimStart s)).
  pose proof (countChar_trimStart c s). lia.
Qed.

(** A trimmed string is empty or begins with a character that is not
    white space. *)
Lemma trim_head (s : string) :
  JsString.trim s = EmptyString \/
  exists c r, JsString.trim s = String c r /\ JsString.isWhiteSpace c = false.
Proof.
  unfold JsString.trim.
  assert (H : JsString.trimStart s = EmptyString \/
              exists c r, JsString.trimStart s = String c r /\
                          JsString.isWhiteSpace c = false).
  { induction s as [|a r IH]; cbn; [now left|].
    destruct (JsString.isWhiteSpace a) eqn:Ha; [exact IH|].
    right. now exists a, r. }
  destruct H as [-> | (c & r & -> & Hc)]; [now left|].
  right. cbn. rewrite Hc. cbn. now exists c, (JsString.trimEnd r).
Qed.

(** Trimming a string that begins with a visible character leaves that
    character in front. *)
Lemma trim_keeps_visible_head (c : ascii) (r : string) :
  JsString.isWhiteSpace c = false ->
  JsString.trim (String c r) <> EmptyString.
Proof.
  intros Hc. unfold JsString.trim. cbn. rewrite Hc. cbn. rewrite Hc. cbn.
  discriminate.
Qed.

(** The first piece of a split is empty or begins like the string. *)
Lemma split_first_piece (sep : ascii) (c : ascii) (r : string) :
  exists pieces,
    JsString.split sep (String c r)
    = (if Ascii.eqb c sep then EmptyString
       else String c (hd EmptyString (JsString.split sep r))) :: pieces.
Proof.
  cbn. destruct (Ascii.eqb c sep); [eexists; reflexivity|].
  destruct (JsString.split sep r); eexists; reflexivity.
Qed.

(** What one segment contributes: nothing, or one cookie of the expected
    shape. *)
Lemma cookiesOfSegment_shape (pair : string) :
  countChar ";" pair = O ->
  cookiesOfSegment pair = [] \/
  exists c, cookiesOfSegment pair = [c] /\ linktreeScoped c.
Proof.
  intros Hsemi. unfold cookiesOfSegment, parseCookies_step.
  pose proof (countChar_trim ";" pair) as Htrim.
  destruct (trim_head pair) as [Hempty | (c & r & Ht & Hc)].
  { rewrite Hempty. cbn. now left. }
  rewrite Ht in *.
  destruct (split_first_piece "=" c r) as (pieces & Hsplit).
  pose proof (split_pieces "=" (String c r)) as Hpieces.
  rewrite Hsplit in *. cbn [nth_error app].
  set (first := if Ascii.eqb c "=" then EmptyString
                else String c (hd EmptyString (JsString.split "=" r))) in *.
  destruct (truthy (Some first)) eqn:Hname; cbn [andb]; [|now left].
  destruct pieces as [|v pieces]; cbn [nth_error truthy]; [now left|].
  destruct (negb (JsString.isEmpty v)); [|now left].
  right. eexists. split; [reflexivity|].
  destruct (Hpieces first (or_introl eq_refl)) as [Hn0 Hnle].
  destruct (Hpieces v (or_intror (or_introl eq_refl))) as [Hv0 Hvle].
  pose proof (Hnle ";"%char) as Hn1. pose proof (Hvle ";"%char) as Hv1.
  pose proof (countChar_trim "=" first). pose proof (countChar_trim ";" first).
  pose proof (countChar_trim "=" v). pose proof (countChar_trim ";" v).
  unfold linktreeScoped, linktreeCookie. cbn.
  repeat split; try lia.
  subst first. destruct (Ascii.eqb c "="); [discriminate|].
  now apply trim_keeps_visible_head.
Qed.

(** X1.  Every cookie [parseCookies] builds has a non-empty name, holds
    neither [=] nor [;] in its name or its value, and carries the fixed
    attributes: domain [.linktr.ee], path [/], secure, not http-only,
    same-site [Lax]. *)
Theorem parseCookies_cookies_are_scoped :
  forall cookieString : string,
    Forall linktreeScoped (parseCookies cookieString).
Proof.
  intros cookieString. rewrite parseCookies_by_segment.
  pose proof (split_pieces ";" cookieString) as Hpieces.
  induction (JsString.split ";" cookieString) as [|pair pairs IH]; cbn.
  - constructor.
  - apply Forall_app. split.
    + destruct (cookiesOfSegment_shape pair) as [-> | (c & -> & Hc)].
      * apply (Hpieces pair). now left.
      * constructor.
      * now constructor.
    + apply IH. intros piece Hin. apply Hpieces. now right.
Qed.

(** X2.  [parseCookies] yields at most one cookie per segment: never more
    cookies than the header has [;] characters, plus one. *)
Theorem parseCookies_at_most_one_per_segment :
  forall cookieString : string,
    (List.length (parseCookies cookieString)
     <= S (countChar ";" cookieString))%nat.
Proof.
  intros cookieString. rewrite parseCookies_by_segment, <- split_length.
  pose proof (split_pieces ";" cookieString) as Hpieces.
  induction (JsString.split ";" cookieString) as [|pair pairs IH]; cbn.
  - lia.
  - rewrite length_app.
    assert (Hone : (List.length (cookiesOfSegment pair) <= 1)%nat).
    { destruct (cookiesOfSegment_shape pair) as [-> | (c & -> & _)].
      - apply (Hpieces pair). now left.
      - cbn. lia.
      - cbn. lia. }
    assert (Hrest : (List.length (flat_map cookiesOfSegment pairs)
                     <= List.length pairs)%nat)
      by (apply IH; intros piece Hin; apply Hpieces; now right).
    lia.
Qed.

Lemma split_append (sep : ascii) (a b : string) :
  JsString.split sep (a ++ String sep b)%string
  = JsString.split sep a ++ JsString.split sep b.
Proof.
  induction a as [|c r IH]; cbn.
  - now rewrite Ascii.eqb_refl.
  - destruct (Ascii.eqb c sep); [now rewrite IH|].
    rewrite IH. destruct (JsString.split sep r) as [|p ps] eqn:Hr.
    + exfalso. pose proof (split_length sep r) as Hlen.
      rewrite Hr in Hlen. discriminate.
    + reflexivity.
Qed.

(** X3.  Joining two cookie headers with [;] joins their cookies: the
    segments are parsed independently of one another and in order. *)
Theorem parseCookies_of_joined_headers :
  forall a b : string,
    parseCookies (a ++ ";" ++ b)%string = parseCookies a ++ parseCookies b.
Proof.
  intros a b. rewrite !parseCookies_by_segment.
  change (a ++ ";" ++ b)%string with (a ++ String ";" b)%string.
  now rewrite split_append, flat_map_app.
Qed.

(** X4.  A header without any [=] yields no cookie at all. *)
Theorem parseCookies_without_equals_is_empty :
  forall cookieString : string,
    countChar "=" cookieString = O -> parseCookies cookieString = [].
Proof.
  intros cookieString Hnone. rewrite parseCookies_by_segment.
  pose proof (split_pieces ";" cookieString) as Hpieces.
  induction (JsString.split ";" cookieString) as [|pair pairs IH]; cbn;
    [reflexivity|].
  rewrite IH by (intros piece Hin; apply Hpieces; now right).
  rewrite app_nil_r.
  destruct (Hpieces pair (or_introl eq_refl)) as [_ Hle].
  specialize (Hle "="%char). pose proof (countChar_trim "=" pair).
  unfold cookiesOfSegment, parseCookies_step.
  rewrite (split_no_separator "=" (JsString.trim pair)) by lia.
  cbn [nth_error truthy]. now rewrite andb_false_r.
Qed.

Lemma parseCookies_without_equals_is_empty_witness :
  countChar "=" "session; theme ;;" = O /\
  parseCookies "session; theme ;;" = [].
Proof.
  assert (H : countChar "=" "session; theme ;;" = O) by reflexivity.
  split; [exact H|].
  exact (parseCookies_without_equals_is_empty "session; theme ;;" H).
Defined.

(* ================================================================= *)
(** ** retry: success, bounds and waiting time *)

Lemma delays_failedRounds (delay : Z) (es : list exn) :
  forall (k : nat) (z : Z),
    z = Z.of_nat k ->
    delays (failedRounds delay z es) = linearDelays delay k (List.length es).
Proof.
  unfold linearDelays.
  induction es as [|e es IH]; intros k z ->; cbn; [reflexivity|].
  f_equal. apply IH. lia.
Qed.

Lemma delays_append (l1 l2 : list probe_event) :
  delays (l1 ++ l2) = delays l1 ++ delays l2.
Proof.
  induction l1 as [|[r|args|ms] l1 IH]; cbn; now rewrite ?IH.
Qed.

Lemma stateAfter_succ {St A} (fn : St -> (A + exn) * St) (k : nat) (s : St) :
  stateAfter fn (S k) s = stateAfter fn k (snd (fn s)).
Proof.
  unfold stateAfter. now rewrite Nat.iter_succ_r.
Qed.

Section RetryFirstSuccess.
Context {St A : Type}.
Variable fn : St -> (A + exn) * St.
Variables maxRetries delay : Z.

(** The loop entered at index [i] when the next [m] attempts fail and the
    one after them succeeds. *)
Lemma retry_loop_first_success (m : nat) :
  forall (fuel : nat) (i : Z) (w : probe St) (a : A),
    0 <= i -> i + Z.of_nat m < maxRetries -> (m < fuel)%nat ->
    (forall j, (j < m)%nat ->
               exists e, fst (fn (stateAfter fn j (opState w))) = inr e) ->
    fst (fn (stateAfter fn m (opState w))) = inl a ->
    exists es,
      List.length es = m /\
      retry_loop (probed fn) maxRetries delay fuel i w
      = Returned (Some a)
          (mkProbe (stateAfter fn (S m) (opState w))
             (events w ++ failedRounds delay (i + 1) es ++ [Invoked None])).
Proof.
  induction m as [|m IH]; intros fuel i w a Hi Hlt Hfuel Hfail Hok;
    (destruct fuel as [|fuel]; [lia|]); cbn [retry_loop];
    (replace (i <? maxRetries) with true by (symmetry; apply Z.ltb_lt; lia)).
  - exists []. split; [reflexivity|].
    unfold tryCatch, bind, probed. cbn in Hok |- *.
    destruct (fn (opState w)) as [[a'|e] s']; cbn in *; [|discriminate].
    now inversion Hok.
  - destruct (Hfail O ltac:(lia)) as [e He]. cbn in He.
    set (loop := retry_loop (probed fn) maxRetries delay fuel) in *.
    unfold tryCatch, bind, probed.
    destruct (fn (opState w)) as [[a'|e'] s'] eqn:Hfn; cbn in He;
      [discriminate|]. inversion He; subst e'.
    cbn [effect ret throw].
    replace (i =? maxRetries - 1) with false
      by (symmetry; apply Z.eqb_neq; lia).
    cbn [console_log setTimeout probe_runtime opState events].
    assert (Hs' : s' = snd (fn (opState w))) by now rewrite Hfn.
    match goal with
    | |- exists es, _ /\ loop _ ?w1 = _ =>
        destruct (IH fuel (i + 1) w1 a) as (es & Hlen & Hrun)
    end; try lia.
    + intros j Hj. cbn [opState]. rewrite Hs', <- stateAfter_succ.
      apply Hfail. lia.
    + cbn [opState]. now rewrite Hs', <- stateAfter_succ.
    + exists (e :: es). split; [cbn; now rewrite Hlen|].
      subst loop. rewrite Hrun. cbn [opState events failedRounds attemptLog].
      rewrite (stateAfter_succ fn (S m)), <- Hs'.
      repeat rewrite <- app_assoc. reflexivity.
Qed.
End RetryFirstSuccess.

(** X5.  When the first [m - 1] attempts of an operation fail and the
    [m]-th succeeds, with [m <= maxRetries], [retry] returns the value of
    attempt [m] after exactly [m] invocations, having waited [delay],
    [2 * delay], ..., [(m - 1) * delay] in between; a success at the
    first attempt waits for nothing. *)
Theorem retry_returns_first_success :
  forall (St A : Type) (fn : St -> (A + exn) * St) (n delay : Z) (s : St)
         (m : nat) (a : A),
    (1 <= m)%nat -> Z.of_nat m <= n ->
    (forall j, (j < m - 1)%nat ->
               exists e, fst (fn (stateAfter fn j s)) = inr e) ->
    fst (fn (stateAfter fn (m - 1) s)) = inl a ->
    exists w,
      retry (probed fn) n delay (mkProbe s []) = Returned (Some a) w /\
      List.length (invocations (events w)) = m /\
      delays (events w) = linearDelays delay 1 (m - 1) /\
      opState w = stateAfter fn m s.
Proof.
  intros St A fn n delay s m a Hm Hn Hfail Hok.
  destruct (retry_loop_first_success fn n delay (m - 1)
              (S (Z.to_nat n)) 0 (mkProbe s []) a)
    as (es & Hlen & Hrun); try lia; try assumption.
  eexists. split; [exact Hrun|]. cbn [events opState app].
  rewrite invocations_app, invocations_failedRounds, length_app, length_map.
  rewrite delays_append.
  rewrite (delays_failedRounds delay es 1) by reflexivity. rewrite Hlen.
  cbn [invocations delays List.length].
  rewrite app_nil_r. repeat split; try lia.
  replace (S (m - 1)) with m by lia. reflexivity.
Qed.

Lemma retry_returns_first_success_witness :
  (1 <= 3)%nat /\ Z.of_nat 3 <= 3 /\
  (forall j, (j < 3 - 1)%nat ->
             exists e, fst (flakyCounter 3 (stateAfter (flakyCounter 3) j 0%nat))
                       = inr e) /\
  fst (flakyCounter 3 (stateAfter (flakyCounter 3) (3 - 1) 0%nat)) = inl 3%nat /\
  exists w,
    retry (probed (flakyCounter 3)) 3 1000 (mkProbe 0%nat [])
      = Returned (Some 3%nat) w /\
    List.length (invocations (events w)) = 3%nat /\
    delays (events w) = linearDelays 1000 1 (3 - 1) /\
    opState w = stateAfter (flakyCounter 3) 3 0%nat.
Proof.
  assert (H1 : (1 <= 3)%nat) by lia.
  assert (H2 : Z.of_nat 3 <= 3) by lia.
  assert (H3 : forall j, (j < 3 - 1)%nat ->
                 exists e,
                   fst (flakyCounter 3 (stateAfter (flakyCounter 3) j 0%nat))
                   = inr e)
    by (intros j Hj; destruct j as [|[|j]];
        [eexists; reflexivity | eexists; reflexivity | cbn in Hj; lia]).
  assert (H4 : fst (flakyCounter 3 (stateAfter (flakyCounter 3) (3 - 1) 0%nat))
               = inl 3%nat) by reflexivity.
  split; [exact H1|]. split; [exact H2|]. split; [exact H3|].
  split; [exact H4|].
  exact (retry_returns_first_success nat nat (flakyCounter 3) 3 1000 0%nat
           3%nat 3%nat H1 H2 H3 H4).
Defined.

(** X6.  With [maxRetries <= 0] the loop body is never entered: on any
    host, [retry] returns [undefined] at once, without invoking the
    operation, logging or waiting. *)
Theorem retry_without_attempts :
  forall (W : Type) (RT : Runtime W) (A : Type) (fn : M W A)
         (n delay : Z) (w : W),
    n <= 0 -> retry fn n delay w = Returned None w.
Proof.
  intros W RT A fn n delay w Hn. unfold retry. cbn [retry_loop].
  replace (0 <? n) with false by (symmetry; apply Z.ltb_ge; lia).
  reflexivity.
Qed.

Lemma retry_without_attempts_witness :
  0 <= 0 /\
  retry (probed failingCounter) 0 1000 (mkProbe 0%nat [])
    = Returned None (mkProbe 0%nat []).
Proof.
  assert (H : 0 <= 0) by lia.
  split; [exact H|].
  exact (retry_without_attempts (probe nat) (probe_runtime nat) unit
           (probed failingCounter) 0 1000 (mkProbe 0%nat []) H).
Defined.

Lemma linearDelays_sum (delay : Z) (count : nat) :
  2 * fold_right Z.add 0 (linearDelays delay 1 count)
  = delay * Z.of_nat count * (Z.of_nat count + 1).
Proof.
  unfold linearDelays. induction count as [|count IH]; [cbn; lia|].
  rewrite seq_S, map_app, fold_right_app. cbn [map fold_right].
  assert (Hshift : forall (l : list Z) (z : Z),
             fold_right Z.add z l = fold_right Z.add 0 l + z).
  { induction l as [|x l IHl]; intros z; cbn; [lia|]. rewrite IHl. lia. }
  rewrite Hshift. nia.
Qed.

(** X7.  When every attempt fails, the waits of a run are [delay],
    [2 * delay], ..., [(n - 1) * delay], so that the run has waited
    [delay * n * (n - 1) / 2] in total before it throws (3000 ms with the
    defaults 3 and 1000). *)
Theorem retry_total_delay_when_exhausted :
  forall (St A : Type) (fn : St -> (A + exn) * St) (n delay : Z) (s : St),
    1 <= n ->
    alwaysFails fn ->
    let evs := finalEvents (retry (probed fn) n delay (mkProbe s [])) in
    delays evs = linearDelays delay 1 (Z.to_nat n - 1) /\
    2 * totalDelay evs = delay * n * (n - 1).
Proof.
  intros St A fn n delay s Hn Hfail evs.
  assert (Hd : delays evs = linearDelays delay 1 (Z.to_nat n - 1)).
  { subst evs. pose proof (retry_run fn n delay s) as Hrun.
    inversion Hrun as [es a Hlen Ha | es e Hlen He | Hge];
      cbn [finalEvents opState events app] in *.
    - destruct (Hfail (stateAfter fn (List.length es) s)) as [e He].
      congruence.
    - rewrite delays_append.
      rewrite (delays_failedRounds delay es 1) by reflexivity.
      cbn [delays attemptLog].
      rewrite app_nil_r. f_equal. lia.
    - lia. }
  split; [exact Hd|].
  unfold totalDelay. rewrite Hd, linearDelays_sum.
  replace (Z.of_nat (Z.to_nat n - 1)) with (n - 1) by lia. lia.
Qed.

Lemma retry_total_delay_when_exhausted_witness :
  let evs := finalEvents
               (retry (probed failingCounter) 3 1000 (mkProbe 0%nat [])) in
  1 <= 3 /\ alwaysFails failingCounter /\
  delays evs = linearDelays 1000 1 (Z.to_nat 3 - 1) /\
  2 * totalDelay evs = 1000 * 3 * (3 - 1).
Proof.
  assert (H1 : 1 <= 3) by lia.
  assert (H2 : alwaysFails failingCounter)
    by (intros calls; eexists; reflexivity).
  split; [exact H1|]. split; [exact H2|].
  exact (retry_total_delay_when_exhausted nat unit failingCounter 3 1000
           0%nat H1 H2).
Defined.

(* ================================================================= *)
(** ** The scroll loop on a page of bounded height *)

(** While the measurements grow, the [k]-th one is at least [k + 1]. *)
Lemma growing_heights_lower_bound (heights : nat -> Z) (k : nat) :
  (forall j, (j <= k)%nat -> grows heights j) ->
  Z.of_nat (S k) <= heights k.
Proof.
  induction k as [|k IH]; intros Hgrow.
  - specialize (Hgrow O (Nat.le_refl _)). unfold grows in Hgrow. cbn in *. lia.
  - pose proof (Hgrow (S k) (Nat.le_refl _)) as Hk. unfold grows in Hk.
    cbn [previousOf] in Hk.
    assert (Z.of_nat (S k) <= heights k) by (apply IH; intros j Hj; apply Hgrow; lia).
    lia.
Qed.

(** X8.  On a page whose height never exceeds [H], the scroll loop
    terminates: it returns after at most [H] scroll iterations, never
    throws and never runs on. *)
Theorem scroll_loop_terminates_on_bounded_page :
  forall (heights : nat -> Z) (H : Z) (fuel : nat),
    (forall k, heights k <= H) ->
    (Z.to_nat H < fuel)%nat ->
    exists h',
      loadAll (scriptedPage heights) fuel [] = Returned tt h' /\
      Z.of_nat (countAction isScroll h') <= Z.max H 0.
Proof.
  intros heights H fuel Hbound Hfuel.
  pose proof (loadAll_run heights fuel) as Hrun.
  destruct (loadAll (scriptedPage heights) fuel []) as [[] h' | e h' |].
  - destruct Hrun as (m & Hm & Hstop & Hgrow & Hs & _).
    exists h'. split; [reflexivity|]. rewrite Hs.
    destruct m as [|m]; [lia|].
    pose proof (growing_heights_lower_bound heights m) as Hlow.
    specialize (Hbound m).
    assert (Z.of_nat (S m) <= heights m)
      by (apply Hlow; intros j Hj; apply Hgrow; lia).
    lia.
  - contradiction.
  - exfalso.
    pose proof (growing_heights_lower_bound heights (Z.to_nat H)) as Hlow.
    specialize (Hbound (Z.to_nat H)).
    assert (Z.of_nat (S (Z.to_nat H)) <= heights (Z.to_nat H))
      by (apply Hlow; intros j Hj; apply Hrun; lia).
    lia.
Qed.

Lemma scroll_loop_terminates_on_bounded_page_witness :
  (forall k, script [100; 200; 200] k <= 200) /\
  (Z.to_nat 200 < 201)%nat /\
  exists h',
    loadAll (scriptedPage (script [100; 200; 200])) 201 [] = Returned tt h' /\
    Z.of_nat (countAction isScroll h') <= Z.max 200 0.
Proof.
  assert (H1 : forall k, script [100; 200; 200] k <= 200)
    by (intros k; destruct k as [|[|[|k]]]; unfold script; cbn;
        try lia; destruct k; lia).
  assert (H2 : (Z.to_nat 200 < 201)%nat) by lia.
  split; [exact H1|]. split; [exact H2|].
  exact (scroll_loop_terminates_on_bounded_page (script [100; 200; 200])
           200 201%nat H1 H2).
Defined.

(* ================================================================= *)
(** ** sendToWebhook: what it throws and when it returns *)

(** X9.  [sendToWebhook] rethrows a rejected [fetch] unchanged, without
    reading any body; it rethrows a rejected [response.text()] unchanged,
    whatever the status; every throw is preceded by the console line
    [Webhook error:] with the thrown value; and when it returns, the
    endpoint answered with a 2xx status and the returned string is the
    body text. *)
Theorem sendToWebhook_outcomes :
  forall (env : Environment) (cfg : Config) (data : WebhookData) (h : history),
    let request := Fetch (WEBHOOK_URL cfg) "POST" "application/json" data in
    let reported e := ConsoleError [LStr "Webhook error:"; LErr e] in
    (forall e,
        respond env request h = Rejected e ->
        sendToWebhook env cfg data h = Thrown e (h ++ [request; reported e])) /\
    (forall resp e,
        respond env request h = Fulfilled resp ->
        text resp = Rejected e ->
        sendToWebhook env cfg data h
          = Thrown e (h ++ [request; ResponseText; reported e])) /\
    (forall e h',
        sendToWebhook env cfg data h = Thrown e h' ->
        exists h1, h' = h1 ++ [reported e]) /\
    (forall body h',
        sendToWebhook env cfg data h = Returned body h' ->
        exists resp,
          respond env request h = Fulfilled resp /\
          text resp = Fulfilled body /\
          200 <= status resp <= 299).
Proof.
  intros env cfg data h request reported.
  unfold sendToWebhook, tryCatch, bind, await, console_error, effect, throw, ret.
  fold request. split; [|split; [|split]].
  - intros e He. rewrite He. cbn. rewrite <- app_assoc. reflexivity.
  - intros resp e Hresp He. rewrite Hresp, He. cbn.
    repeat rewrite <- app_assoc. reflexivity.
  - intros e h'.
    destruct (respond env request h) as [resp | e0]; cbn;
      [destruct (text resp) as [body0 | e1]; cbn; [destruct (ok resp); cbn|]|];
      intros Heq; inversion Heq; subst; eexists; reflexivity.
  - intros body h'.
    destruct (respond env request h) as [resp | e0]; cbn; [|discriminate].
    destruct (text resp) as [body0 | e1] eqn:Htext; cbn; [|discriminate].
    unfold ok.
    destruct ((200 <=? status resp) && (status resp <=? 299)) eqn:Hok; cbn;
      [|discriminate].
    intros Heq. inversion Heq; subst. exists resp.
    apply andb_true_iff in Hok as [H1 H2].
    apply Z.leb_le in H1. apply Z.leb_le in H2. repeat split; auto.
Qed.

Lemma sendToWebhook_outcomes_witness :
  let data := mkWebhookData "2024-01-01" [] in
  let request :=
    Fetch (WEBHOOK_URL cookieOnlyConfig) "POST" "application/json" data in
  let e := mkExn "TypeError" "fetch failed" in
  respond unreachableWebhook request [] = Rejected e /\
  sendToWebhook unreachableWebhook cookieOnlyConfig data []
    = Thrown e ([] ++ [request; ConsoleError [LStr "Webhook error:"; LErr e]]).
Proof.
  intros data request e.
  assert (H : respond unreachableWebhook request [] = Rejected e)
    by reflexivity.
  split; [exact H|].
  exact (proj1 (sendToWebhook_outcomes unreachableWebhook cookieOnlyConfig
                  data []) e H).
Defined.

(* ================================================================= *)
(** ** The extractor: provenance of the records, selectors *)

(** *** The class-token selector adds nothing *)

(** Every token of a [class] attribute occurs in the attribute, and when
    the attribute begins with a visible character its first token is a
    prefix of it. *)
Lemma tokens_occur (v : string) :
  (forall t, In t (tokens v) -> JsString.includes t v = true) /\
  (forall c r, v = String c r -> isAsciiWhitespace c = false ->
               exists t ts, tokens v = t :: ts /\
                            JsString.startsWith t v = true).
Proof.
  induction v as [|c r [IHin IHhead]].
  - split; [intros t []|discriminate].
  - assert (Hself : forall p, JsString.startsWith p p = true).
    { induction p as [|a p IHp]; cbn; [reflexivity|].
      now rewrite Ascii.eqb_refl. }
    assert (Hcons : forall t, JsString.includes t r = true ->
                              JsString.includes t (String c r) = true).
    { intros t Ht. cbn [JsString.includes]. rewrite Ht. apply orb_true_r. }
    assert (Hhead : forall t, JsString.startsWith t (String c r) = true ->
                              JsString.includes t (String c r) = true).
    { intros t Ht. cbn [JsString.includes]. now rewrite Ht. }
    cbn [tokens].
    destruct (isAsciiWhitespace c) eqn:Hc.
    + split.
      * intros t Hin. apply Hcons. now apply IHin.
      * intros c' r' [= <- <-] Hc'. congruence.
    + destruct r as [|c' r'] eqn:Hr.
      * split.
        -- intros t [<-|[]]. apply Hhead. cbn. now rewrite Ascii.eqb_refl.
        -- intros c0 r0 [= <- <-] _. eexists. eexists.
           split; [reflexivity|]. cbn. now rewrite Ascii.eqb_refl.
      * destruct (isAsciiWhitespace c') eqn:Hc'.
        -- split.
           ++ intros t [<-|Hin].
              ** apply Hhead. cbn. now rewrite Ascii.eqb_refl.
              ** apply Hcons. now apply IHin.
           ++ intros c0 r0 [= <- <-] _. eexists. eexists.
              split; [reflexivity|]. cbn. now rewrite Ascii.eqb_refl.
        -- destruct (IHhead c' r' eq_refl Hc') as (t0 & ts & Htok & Hpre).
           rewrite Htok. split.
           ++ intros t [<-|Hin].
              ** apply Hhead. cbn [JsString.startsWith].
                 now rewrite Ascii.eqb_refl, Hpre.
              ** apply Hcons. apply IHin. rewrite Htok. now right.
           ++ intros c0 r0 [= <- <-] _. exists (String c t0), ts.
              split; [reflexivity|]. cbn [JsString.startsWith].
              now rewrite Ascii.eqb_refl, Hpre.
Qed.

Lemma string_eqb_eq (a b : string) : String.eqb a b = true -> a = b.
Proof. apply String.eqb_eq. Qed.

(** An element with the class token [link-card] has [link-card] inside
    its [class] attribute. *)
Lemma class_token_implies_substring (el : node) :
  matchesCompound [ClassSel "link-card"] el = true ->
  matchesCompound [AttrContains "class" "link-card"] el = true.
Proof.
  unfold matchesCompound. cbn [List.forallb]. rewrite !andb_true_r.
  destruct el as [d|tag attrs v h kids]; cbn [matchesSimple]; [auto|].
  destruct (lookupAttribute "class" attrs) as [cls|]; [|auto].
  intros H. apply List.existsb_exists in H as (t & Hin & Heq).
  apply string_eqb_eq in Heq. subst t.
  cbn [JsString.isEmpty negb andb].
  now apply (proj1 (tokens_occur cls)).
Qed.

(** X12.  The second card selector, [.link-card], is covered by the third,
    [[class*="link-card"]]: the cards of any document are the elements
    that the first or the third selector matches. *)
Theorem card_selection_needs_two_selectors :
  forall root : node,
    documentQuerySelectorAll cardSelectors root
    = documentQuerySelectorAll cardSelectorsWithoutClassToken root.
Proof.
  intros root. unfold documentQuerySelectorAll. apply filter_ext.
  intros el. unfold matches, cardSelectors, cardSelectorsWithoutClassToken.
  cbn [List.existsb].
  destruct (matchesCompound [AttrEquals "data-testid" "link-card"] el);
    [reflexivity|]. cbn [orb].
  destruct (matchesCompound [ClassSel "link-card"] el) eqn:Hclass;
    [|reflexivity].
  now rewrite (class_token_implies_substring el Hclass).
Qed.

(** *** Where the records come from *)





(* ================================================================= *)
(** ** main: what a run calls, and how often *)

Section Emits.
Variable p : action -> bool.
Hypothesis quiet : ignoresLoops p.

Lemma emits_ret {A} (a : A) : emits p 0 (ret a).
Proof. intros h. cbn. exists []. now rewrite app_nil_r. Qed.

Lemma emits_throw {A} (e : exn) : emits p 0 (@throw history A e).
Proof. intros h. cbn. exists []. now rewrite app_nil_r. Qed.

Lemma emits_pending {A} : emits p 0 (fun _ : history => @Pending history A).
Proof. intros h. exact I. Qed.

Lemma emits_le {A} (n m : nat) (c : M history A) :
  emits p n c -> (n <= m)%nat -> emits p m c.
Proof.
  intros Hc Hle h. specialize (Hc h).
  destruct (settledHistory (c h)); [|exact I].
  destruct Hc as (t & -> & Hn). exists t. split; [reflexivity|lia].
Qed.

Lemma emits_bind {A B} (n m : nat) (c : M history A) (k : A -> M history B) :
  emits p n c -> (forall a, emits p m (k a)) -> emits p (n + m) (bind c k).
Proof.
  intros Hc Hk h. specialize (Hc h). unfold bind.
  destruct (c h) as [a h1 | e h1 |]; cbn in *.
  - destruct Hc as (t1 & -> & H1). specialize (Hk a (h ++ t1)).
    destruct (settledHistory (k a (h ++ t1))); [|exact I].
    destruct Hk as (t2 & -> & H2). exists (t1 ++ t2).
    rewrite app_assoc, countAction_app. split; [reflexivity|lia].
  - destruct Hc as (t1 & -> & H1). exists t1. split; [reflexivity|lia].
  - exact I.
Qed.

Lemma emits_tryCatch {A} (n m : nat) (body : M history A)
      (handler : exn -> M history A) :
  emits p n body -> (forall e, emits p m (handler e)) ->
  emits p (n + m) (tryCatch body handler).
Proof.
  intros Hb Hh h. specialize (Hb h). unfold tryCatch.
  destruct (body h) as [a h1 | e h1 |]; cbn in *; [| |exact I].
  - destruct Hb as (t1 & -> & H1). exists t1. split; [reflexivity|lia].
  - destruct Hb as (t1 & -> & H1). specialize (Hh e (h ++ t1)).
    destruct (settledHistory (handler e (h ++ t1))); [|exact I].
    destruct Hh as (t2 & -> & H2). exists (t1 ++ t2).
    rewrite app_assoc, countAction_app. split; [reflexivity|lia].
Qed.

Lemma emits_tryFinally {A} (n m : nat) (body : M history A)
      (cleanup : M history unit) :
  emits p n body -> emits p m cleanup ->
  emits p (n + m) (tryFinally body cleanup).
Proof.
  intros Hb Hc h. specialize (Hb h). unfold tryFinally.
  destruct (body h) as [a h1 | e h1 |]; cbn in *; [| |exact I];
    destruct Hb as (t1 & -> & H1); specialize (Hc (h ++ t1));
    destruct (cleanup (h ++ t1)) as [[] h2 | e2 h2 |]; cbn in *;
    try exact I;
    destruct Hc as (t2 & -> & H2); exists (t1 ++ t2);
    rewrite app_assoc, countAction_app; (split; [reflexivity|lia]).
Qed.

Lemma emits_await {A} (act : action) (oracle : history -> outcome A) :
  emits p (weight p act) (await act oracle).
Proof.
  intros h. unfold await.
  destruct (oracle h); cbn; exists [act];
    (split; [reflexivity|]); unfold countAction, weight; cbn;
    destruct (p act); cbn; lia.
Qed.

Lemma emits_observe {A} (act : action) (oracle : history -> A) :
  emits p (weight p act) (observe act oracle).
Proof.
  intros h. cbn. exists [act]. split; [reflexivity|].
  unfold countAction, weight; cbn. destruct (p act); cbn; lia.
Qed.

Lemma emits_log (args : list logarg) : emits p 0 (effect (console_log args)).
Proof.
  intros h. cbn. exists [ConsoleLog args]. split; [reflexivity|].
  unfold countAction. cbn. now rewrite (proj1 quiet).
Qed.

Lemma emits_sleep (ms : Z) : emits p 0 (effect (setTimeout ms)).
Proof.
  intros h. cbn. exists [SetTimeout ms]. split; [reflexivity|].
  unfold countAction. cbn.
  destruct quiet as (_ & _ & Hsleep & _). now rewrite Hsleep.
Qed.

Lemma emits_console_error (args : list logarg) :
  emits p 0 (console_error args).
Proof.
  intros h. cbn. exists [ConsoleError args]. split; [reflexivity|].
  unfold countAction. cbn.
  destruct quiet as (_ & Herr & _). now rewrite Herr.
Qed.

(** [retry] multiplies the cost of the operation by the number of
    attempts that are left. *)
Lemma emits_retry_loop {A} (k : nat) (fn : M history A)
      (maxRetries delay : Z) (fuel : nat) :
  emits p k fn ->
  forall i,
    emits p (k * Z.to_nat (maxRetries - i))
          (retry_loop fn maxRetries delay fuel i).
Proof.
  intros Hfn. induction fuel as [|fuel IH]; intros i; cbn [retry_loop].
  - intros h. exact I.
  - destruct (i <? maxRetries) eqn:Hlt.
    2:{ apply (emits_le 0); [apply emits_ret | apply Nat.le_0_l]. }
    apply Z.ltb_lt in Hlt.
    apply (emits_le (k + 0 + (0 + k * Z.to_nat (maxRetries - (i + 1))))).
    2:{ replace (Z.to_nat (maxRetries - i))
          with (S (Z.to_nat (maxRetries - (i + 1)))) by lia.
        rewrite Nat.mul_succ_r. lia. }
    apply emits_tryCatch.
    + apply emits_bind; [exact Hfn|]. intros a. apply emits_ret.
    + intros e. apply emits_bind; [apply emits_log|]. intros _.
      destruct (i =? maxRetries - 1).
      * apply (emits_le 0); [apply emits_throw | apply Nat.le_0_l].
      * apply (emits_bind 0); [apply emits_sleep|]. intros _. apply IH.
Qed.

Lemma emits_retry_default {A} (k : nat) (fn : M history A) :
  emits p k fn -> emits p (k * 3) (retry_default fn).
Proof.
  intros Hfn. unfold retry_default, retry.
  apply (emits_retry_loop k fn 3 1000 _ Hfn 0).
Qed.

Variable env : Environment.
Variable cfg : Config.

Lemma emits_perform (act : action) :
  emits p (weight p act) (perform env act).
Proof. apply emits_await. Qed.

Lemma emits_login : emits p (loginCost p cfg) (login env cfg).
Proof.
  unfold login, loginCost.
  repeat (apply emits_bind; [apply emits_perform | intros _]).
  apply emits_perform.
Qed.

Lemma emits_retry_login :
  emits p (loginCost p cfg * 3) (retry_default (login env cfg) ;; ret tt).
Proof.
  apply (emits_le (loginCost p cfg * 3 + 0)); [|lia].
  apply emits_bind; [|intros _; apply emits_ret].
  apply emits_retry_default, emits_login.
Qed.

Lemma emits_scrollLoop (fuel : nat) :
  forall previousHeight currentHeight,
    emits p 0 (scrollLoop env fuel previousHeight currentHeight).
Proof.
  destruct quiet as (_ & _ & _ & Hmeasure & Hscroll & Hwait).
  assert (W1 : weight p EvalScrollTo = O) by (unfold weight; now rewrite Hscroll).
  assert (W2 : weight p (WaitForTimeout 2000) = O)
    by (unfold weight; now rewrite Hwait).
  assert (W3 : weight p EvalScrollHeight = O)
    by (unfold weight; now rewrite Hmeasure).
  induction fuel as [|fuel IH]; intros previousHeight currentHeight;
    cbn [scrollLoop].
  - intros h. exact I.
  - destruct (currentHeight >? previousHeight); [|apply emits_ret].
    apply (emits_bind 0 0); [rewrite <- W1; apply emits_perform | intros _].
    apply (emits_bind 0 0); [rewrite <- W2; apply emits_perform | intros _].
    apply (emits_bind 0 0); [rewrite <- W3; apply emits_await | intros height].
    apply IH.
Qed.

Lemma emits_loadAll (fuel : nat) : emits p 0 (loadAll env fuel).
Proof.
  destruct quiet as (_ & _ & _ & Hmeasure & _).
  assert (W3 : weight p EvalScrollHeight = O)
    by (unfold weight; now rewrite Hmeasure).
  unfold loadAll.
  apply (emits_bind 0 0); [rewrite <- W3; apply emits_await | intros height].
  apply emits_scrollLoop.
Qed.
End Emits.

Section EmitsOfMain.
Variable p : action -> bool.
Hypothesis quiet : ignoresLoops p.
Variable env : Environment.
Variable cfg : Config.
Variable delivery : nat.
Hypothesis delivery_bound :
  forall data,
    (weight p (Fetch (WEBHOOK_URL cfg) "POST" "application/json" data)
     <= delivery)%nat.

Lemma emits_authenticate :
  emits p (cookieCost p cfg + loginCost p cfg * 3) (authenticate env cfg).
Proof.
  unfold authenticate, cookieCost.
  destruct (truthy (LT_COOKIE cfg)).
  - apply (emits_bind p 0); [now apply emits_log | intros _].
    destruct (LT_COOKIE cfg) as [cookie|].
    2:{ apply (emits_le p 0); [apply emits_ret | apply Nat.le_0_l]. }
    apply emits_tryCatch.
    + unfold cookieAttempt.
      apply (emits_le p (weight p (AddCookies (parseCookies cookie))
                         + (weight p (Goto "https://linktr.ee/admin/links")
                            + (weight p PageUrl + (0 + 0))))); [|lia].
      apply emits_bind; [apply emits_perform | intros _].
      apply emits_bind; [apply emits_perform | intros _].
      apply emits_bind; [apply emits_observe | intros url].
      apply emits_bind; [|intros _; now apply emits_log].
      destruct (JsString.includes "/login" url);
        [apply emits_throw | apply emits_ret].
    + intros e. unfold cookieFallback.
      apply (emits_bind p 0); [now apply emits_log | intros _].
      destruct (credentialsMissing cfg).
      * apply (emits_le p 0); [apply emits_throw | apply Nat.le_0_l].
      * now apply emits_retry_login.
  - apply (emits_le p (0 + loginCost p cfg * 3)); [|lia].
    apply emits_bind; [now apply emits_log | intros _].
    destruct (credentialsMissing cfg).
    + apply (emits_le p 0); [apply emits_throw | apply Nat.le_0_l].
    + now apply emits_retry_login.
Qed.

Lemma emits_sendToWebhook (data : WebhookData) :
  emits p (delivery + weight p ResponseText) (sendToWebhook env cfg data).
Proof.
  unfold sendToWebhook.
  apply (emits_le p (delivery + (weight p ResponseText + (0 + 0)) + (0 + 0)));
    [|lia].
  apply emits_tryCatch.
  - apply emits_bind.
    + eapply emits_le; [apply emits_await | apply delivery_bound].
    + intros response.
      apply emits_bind; [apply emits_await | intros body].
      apply emits_bind; [now apply emits_log | intros _].
      destruct (negb (ok response)); [apply emits_throw | apply emits_ret].
  - intros e. apply emits_bind; [now apply emits_console_error | intros _].
    apply emits_throw.
Qed.

Lemma emits_scrape (fuel : nat) (date : string) :
  emits p (cookieCost p cfg + loginCost p cfg * 3
           + weight p EvalExtract + (delivery + weight p ResponseText))
        (scrape env cfg fuel date).
Proof.
  unfold scrape.
  apply (emits_le p (cookieCost p cfg + loginCost p cfg * 3
                     + (0 + (0 * 3
                        + (0 + (weight p EvalExtract
                           + (0 + (delivery + weight p ResponseText + 0))))))));
    [|lia].
  apply emits_bind; [apply emits_authenticate | intros _].
  apply emits_bind; [now apply emits_log | intros _].
  apply emits_bind;
    [apply emits_retry_default; [exact quiet | now apply emits_loadAll]
    | intros _].
  apply emits_bind; [now apply emits_log | intros _].
  apply emits_bind; [apply emits_await | intros root].
  apply emits_bind; [now apply emits_log | intros _].
  apply emits_bind; [apply emits_sendToWebhook | intros _].
  now apply emits_log.
Qed.

(** The calls of a run, counted by kind. *)
Lemma emits_main (fuel : nat) :
  emits p (mainCost p cfg delivery) (main env cfg fuel).
Proof.
  unfold main, mainCost.
  apply (emits_le p
           (0 + (weight p GetJSTDate
                 + (0 + (weight p Launch
                    + (weight p NewContext
                       + (weight p NewPage
                          + (cookieCost p cfg + loginCost p cfg * 3
                             + weight p EvalExtract
                             + (delivery + weight p ResponseText) + (0 + 0)
                             + weight p BrowserClose)))))))); [|lia].
  apply emits_bind; [now apply emits_log | intros _].
  destruct (negb (truthy (WEBHOOK_URL cfg)));
    [apply (emits_le p 0); [apply emits_throw | apply Nat.le_0_l]|].
  apply emits_bind; [apply emits_observe | intros date].
  apply emits_bind; [now apply emits_log | intros _].
  do 3 (apply emits_bind; [apply emits_perform | intros _]).
  apply emits_tryFinally; [|apply emits_perform].
  apply emits_tryCatch; [apply emits_scrape|].
  intros e. apply emits_bind; [now apply emits_console_error | intros _].
  apply emits_throw.
Qed.
End EmitsOfMain.

(** X14.  Whatever the browser and the endpoint do, a settled run of
    [main] launches at most one browser and closes it at most once,
    injects cookies at most once, evaluates the extractor at most once,
    opens the login page at most three times and submits the login form
    at most three times. *)
Theorem main_call_budget :
  forall (env : Environment) (cfg : Config) (fuel : nat) (h' : history),
    settledHistory (main env cfg fuel []) = Some h' ->
    (countAction isLaunchAction h' <= 1)%nat /\
    (countAction isClose h' <= 1)%nat /\
    (countAction isAddCookies h' <= 1)%nat /\
    (countAction isExtract h' <= 1)%nat /\
    (countAction isLoginVisit h' <= 3)%nat /\
    (countAction isClick h' <= 3)%nat.
Proof.
  intros env cfg fuel h' Hrun.
  assert (Hbudget : forall p,
             ignoresLoops p ->
             (forall data,
                 weight p (Fetch (WEBHOOK_URL cfg) "POST" "application/json"
                                 data) = O) ->
             (countAction p h' <= mainCost p cfg 0)%nat).
  { intros p Hquiet Hfetch.
    pose proof (emits_main p Hquiet env cfg 0%nat) as Hmain.
    specialize (Hmain ltac:(intros data; rewrite Hfetch; lia) fuel []).
    rewrite Hrun in Hmain. destruct Hmain as (t & -> & Hle). exact Hle. }
  assert (Hquiet : forall p,
             (forall args, p (ConsoleLog args) = false) ->
             (forall args, p (ConsoleError args) = false) ->
             (forall ms, p (SetTimeout ms) = false) ->
             p EvalScrollHeight = false -> p EvalScrollTo = false ->
             (forall ms, p (WaitForTimeout ms) = false) ->
             ignoresLoops p)
    by (intros p H1 H2 H3 H4 H5 H6; repeat split; assumption).
  repeat split.
  - eapply Nat.le_trans; [apply Hbudget; [now apply Hquiet | reflexivity]|].
    unfold mainCost, cookieCost, loginCost, weight.
    destruct (LT_COOKIE cfg); cbn; lia.
  - eapply Nat.le_trans; [apply Hbudget; [now apply Hquiet | reflexivity]|].
    unfold mainCost, cookieCost, loginCost, weight.
    destruct (LT_COOKIE cfg); cbn; lia.
  - eapply Nat.le_trans; [apply Hbudget; [now apply Hquiet | reflexivity]|].
    unfold mainCost, cookieCost, loginCost, weight.
    destruct (LT_COOKIE cfg); cbn; lia.
  - eapply Nat.le_trans; [apply Hbudget; [now apply Hquiet | reflexivity]|].
    unfold mainCost, cookieCost, loginCost, weight.
    destruct (LT_COOKIE cfg); cbn; lia.
  - eapply Nat.le_trans; [apply Hbudget; [now apply Hquiet | reflexivity]|].
    unfold mainCost, cookieCost, loginCost, weight.
    destruct (LT_COOKIE cfg); cbn; lia.
  - eapply Nat.le_trans; [apply Hbudget; [now apply Hquiet | reflexivity]|].
    unfold mainCost, cookieCost, loginCost, weight.
    destruct (LT_COOKIE cfg); cbn; lia.
Qed.

Lemma main_call_budget_witness :
  exists h',
    settledHistory (main navigationTimesOut cookieOnlyConfig 5 []) = Some h' /\
    (countAction isLaunchAction h' <= 1)%nat /\
    (countAction isClose h' <= 1)%nat /\
    (countAction isAddCookies h' <= 1)%nat /\
    (countAction isExtract h' <= 1)%nat /\
    (countAction isLoginVisit h' <= 3)%nat /\
    (countAction isClick h' <= 3)%nat.
Proof.
  eexists.
  assert (H : settledHistory (main navigationTimesOut cookieOnlyConfig 5 [])
              = Some _) by reflexivity.
  split; [exact H|].
  exact (main_call_budget navigationTimesOut cookieOnlyConfig 5%nat _ H).
Defined.

(** X15.  Once the browser, the context and the page exist, every
    settled run closes the browser exactly once, and that is the last
    call it makes. *)
Theorem main_closes_browser_exactly_once :
  forall (env : Environment) (cfg : Config) (fuel : nat) (h' : history),
    truthy (WEBHOOK_URL cfg) = true ->
    startupSucceeds env ->
    settledHistory (main env cfg fuel []) = Some h' ->
    (exists h, h' = h ++ [BrowserClose]) /\
    countAction isClose h' = 1%nat.
Proof.
  intros env cfg fuel h' Hurl Hstart Hrun.
  assert (Hlast : exists h, h' = h ++ [BrowserClose]).
  { rewrite main_after_startup in Hrun by assumption.
    unfold tryFinally, perform, await in Hrun.
    destruct (tryCatch _ _ _) as [[] h1 | e h1 |]; cbn in Hrun;
      [| |discriminate];
      destruct (settle env BrowserClose h1); cbn in Hrun;
      inversion Hrun; now exists h1. }
  split; [exact Hlast|].
  assert (Hquiet : ignoresLoops isClose) by (repeat split; reflexivity).
  pose proof (emits_main isClose Hquiet env cfg 0%nat) as Hmain.
  specialize (Hmain ltac:(intros data; cbn; lia) fuel []).
  rewrite Hrun in Hmain. destruct Hmain as (t & Ht & Hle). cbn in Ht. subst t.
  assert (Hcost : mainCost isClose cfg 0 = 1%nat)
    by (unfold mainCost, cookieCost, loginCost, weight;
        destruct (LT_COOKIE cfg); reflexivity).
  destruct Hlast as (h & ->).
  rewrite countAction_app in *. cbn in *. lia.
Qed.

Lemma main_closes_browser_exactly_once_witness :
  exists h',
    truthy (WEBHOOK_URL cookieOnlyConfig) = true /\
    startupSucceeds navigationTimesOut /\
    settledHistory (main navigationTimesOut cookieOnlyConfig 5 []) = Some h' /\
    (exists h, h' = h ++ [BrowserClose]) /\
    countAction isClose h' = 1%nat.
Proof.
  eexists.
  assert (H1 : truthy (WEBHOOK_URL cookieOnlyConfig) = true) by reflexivity.
  assert (H2 : startupSucceeds navigationTimesOut) by (repeat split).
  assert (H3 : settledHistory (main navigationTimesOut cookieOnlyConfig 5 [])
               = Some _) by reflexivity.
  split; [exact H1|]. split; [exact H2|]. split; [exact H3|].
  exact (main_closes_browser_exactly_once navigationTimesOut cookieOnlyConfig
           5%nat _ H1 H2 H3).
Defined.

(** X16.  Without a webhook URL (the variable unset or empty) a run
    throws at once: it has logged its first line and nothing else has
    happened, no browser is launched and nothing is sent. *)
Theorem main_requires_webhook_url :
  forall (env : Environment) (cfg : Config) (fuel : nat) (h : history),
    truthy (WEBHOOK_URL cfg) = false ->
    main env cfg fuel h
    = Thrown missingWebhookUrl
        (h ++ [ConsoleLog [LStr "Starting Linktree insights scraper..."]]).
Proof.
  intros env cfg fuel h Hurl. unfold main, bind.
  cbn [effect console_log browser_runtime]. now rewrite Hurl.
Qed.

Lemma main_requires_webhook_url_witness :
  truthy (WEBHOOK_URL endpointlessConfig) = false /\
  main failingWebhook endpointlessConfig 5 []
  = Thrown missingWebhookUrl
      ([] ++ [ConsoleLog [LStr "Starting Linktree insights scraper..."]]).
Proof.
  assert (H : truthy (WEBHOOK_URL endpointlessConfig) = false) by reflexivity.
  split; [exact H|].
  exact (main_requires_webhook_url failingWebhook endpointlessConfig 5%nat [] H).
Defined.



(* ================================================================= *)
(** ** main: the calls a run is confined to *)

Section Confined.
Variable P : action -> Prop.

Lemma confined_ret {A} (a : A) : confined P (ret a).
Proof. intros h. cbn. exists []. now rewrite app_nil_r. Qed.

Lemma confined_throw {A} (e : exn) : confined P (@throw history A e).
Proof. intros h. cbn. exists []. now rewrite app_nil_r. Qed.

Lemma confined_bind {A B} (c : M history A) (k : A -> M history B) :
  confined P c -> (forall a, confined P (k a)) -> confined P (bind c k).
Proof.
  intros Hc Hk h. specialize (Hc h). unfold bind.
  destruct (c h) as [a h1 | e h1 |]; cbn in *; [|exact Hc|exact I].
  destruct Hc as (t1 & -> & H1). specialize (Hk a (h ++ t1)).
  destruct (settledHistory (k a (h ++ t1))); [|exact I].
  destruct Hk as (t2 & -> & H2). exists (t1 ++ t2).
  rewrite app_assoc. split; [reflexivity|]. now apply Forall_app.
Qed.

Lemma confined_tryCatch {A} (body : M history A)
      (handler : exn -> M history A) :
  confined P body -> (forall e, confined P (handler e)) ->
  confined P (tryCatch body handler).
Proof.
  intros Hb Hh h. specialize (Hb h). unfold tryCatch.
  destruct (body h) as [a h1 | e h1 |]; cbn in *; [exact Hb| |exact I].
  destruct Hb as (t1 & -> & H1). specialize (Hh e (h ++ t1)).
  destruct (settledHistory (handler e (h ++ t1))); [|exact I].
  destruct Hh as (t2 & -> & H2). exists (t1 ++ t2).
  rewrite app_assoc. split; [reflexivity|]. now apply Forall_app.
Qed.

Lemma confined_tryFinally {A} (body : M history A)
      (cleanup : M history unit) :
  confined P body -> confined P cleanup ->
  confined P (tryFinally body cleanup).
Proof.
  intros Hb Hc h. specialize (Hb h). unfold tryFinally.
  destruct (body h) as [a h1 | e h1 |]; cbn in *; [| |exact I];
    destruct Hb as (t1 & -> & H1); specialize (Hc (h ++ t1));
    destruct (cleanup (h ++ t1)) as [[] h2 | e2 h2 |]; cbn in *;
    try exact I;
    destruct Hc as (t2 & -> & H2); exists (t1 ++ t2);
    rewrite app_assoc; (split; [reflexivity|]); now apply Forall_app.
Qed.

Lemma confined_await {A} (act : action) (oracle : history -> outcome A) :
  P act -> confined P (await act oracle).
Proof.
  intros Hact h. unfold await.
  destruct (oracle h); cbn; exists [act]; (split; [reflexivity|]);
    now constructor.
Qed.

Lemma confined_observe {A} (act : action) (oracle : history -> A) :
  P act -> confined P (observe act oracle).
Proof.
  intros Hact h. cbn. exists [act]. split; [reflexivity|]. now constructor.
Qed.

Lemma confined_log (args : list logarg) :
  P (ConsoleLog args) -> confined P (effect (console_log args)).
Proof.
  intros Hact h. cbn. exists [ConsoleLog args].
  split; [reflexivity|]. now constructor.
Qed.

Lemma confined_sleep (ms : Z) :
  P (SetTimeout ms) -> confined P (effect (setTimeout ms)).
Proof.
  intros Hact h. cbn. exists [SetTimeout ms].
  split; [reflexivity|]. now constructor.
Qed.

Lemma confined_console_error (args : list logarg) :
  P (ConsoleError args) -> confined P (console_error args).
Proof.
  intros Hact h. cbn. exists [ConsoleError args].
  split; [reflexivity|]. now constructor.
Qed.

(** [retry] adds its console lines and the waits [delay * k] for the
    attempt numbers [k] that are followed by another attempt. *)
Lemma confined_retry_loop {A} (fn : M history A) (maxRetries delay : Z)
      (fuel : nat) :
  confined P fn ->
  (forall args, P (ConsoleLog args)) ->
  forall i,
    (forall k, i < k < maxRetries -> P (SetTimeout (delay * k))) ->
    confined P (retry_loop fn maxRetries delay fuel i).
Proof.
  intros Hfn Hlog. induction fuel as [|fuel IH]; intros i Hsleep;
    cbn [retry_loop].
  - intros h. exact I.
  - destruct (i <? maxRetries) eqn:Hlt; [|apply confined_ret].
    apply Z.ltb_lt in Hlt.
    apply confined_tryCatch.
    + apply confined_bind; [exact Hfn|]. intros a. apply confined_ret.
    + intros e. apply confined_bind; [apply confined_log, Hlog|]. intros _.
      destruct (i =? maxRetries - 1) eqn:Hlast; [apply confined_throw|].
      apply Z.eqb_neq in Hlast.
      apply confined_bind; [apply confined_sleep, Hsleep; lia|]. intros _.
      apply IH. intros k Hk. apply Hsleep. lia.
Qed.
End Confined.

Section ConfinedScript.
Variable env : Environment.
Variable cfg : Config.
Variable date : string.

Lemma confined_retry_default {A} (fn : M history A) :
  confined (allowedCall cfg date) fn ->
  confined (allowedCall cfg date) (retry_default fn).
Proof.
  intros Hfn. unfold retry_default, retry.
  apply confined_retry_loop; [exact Hfn | intros args; exact I |].
  intros k Hk. cbn [allowedCall]. lia.
Qed.

Lemma confined_login :
  credentialsMissing cfg = false ->
  confined (allowedCall cfg date) (login env cfg).
Proof.
  intros Hcred. unfold login.
  repeat (apply confined_bind; [| intros _]);
    apply confined_await; cbn; auto.
Qed.

Lemma confined_retry_login :
  credentialsMissing cfg = false ->
  confined (allowedCall cfg date) (retry_default (login env cfg) ;; ret tt).
Proof.
  intros Hcred. apply confined_bind; [|intros _; apply confined_ret].
  now apply confined_retry_default, confined_login.
Qed.

Lemma confined_authenticate :
  confined (allowedCall cfg date) (authenticate env cfg).
Proof.
  unfold authenticate.
  destruct (truthy (LT_COOKIE cfg)) eqn:Hcookie.
  - apply confined_bind; [now apply confined_log | intros _].
    destruct (LT_COOKIE cfg) as [cookie|] eqn:Hsome; [|apply confined_ret].
    apply confined_tryCatch.
    + unfold cookieAttempt.
      apply confined_bind;
        [apply confined_await; cbn; now exists cookie | intros _].
      apply confined_bind;
        [apply confined_await; cbn; left; split;
         [reflexivity | now rewrite Hsome]
        | intros _].
      apply confined_bind; [now apply confined_observe | intros url].
      apply confined_bind; [|intros _; now apply confined_log].
      destruct (JsString.includes "/login" url);
        [apply confined_throw | apply confined_ret].
    + intros e. unfold cookieFallback.
      apply confined_bind; [now apply confined_log | intros _].
      destruct (credentialsMissing cfg) eqn:Hcred;
        [apply confined_throw | now apply confined_retry_login].
  - apply confined_bind; [now apply confined_log | intros _].
    destruct (credentialsMissing cfg) eqn:Hcred;
      [apply confined_throw | now apply confined_retry_login].
Qed.

Lemma confined_scrollLoop (fuel : nat) :
  forall previousHeight currentHeight,
    confined (allowedCall cfg date)
             (scrollLoop env fuel previousHeight currentHeight).
Proof.
  induction fuel as [|fuel IH]; intros previousHeight currentHeight;
    cbn [scrollLoop].
  - intros h. exact I.
  - destruct (currentHeight >? previousHeight); [|apply confined_ret].
    apply confined_bind; [now apply confined_await | intros _].
    apply confined_bind; [now apply confined_await | intros _].
    apply confined_bind; [now apply confined_await | intros height].
    apply IH.
Qed.

Lemma confined_loadAll (fuel : nat) :
  confined (allowedCall cfg date) (loadAll env fuel).
Proof.
  unfold loadAll.
  apply confined_bind; [now apply confined_await | intros height].
  apply confined_scrollLoop.
Qed.

Lemma confined_sendToWebhook (data : WebhookData) :
  dateISO data = date ->
  Forall validRecord (items data) ->
  confined (allowedCall cfg date) (sendToWebhook env cfg data).
Proof.
  intros Hdate Hitems. unfold sendToWebhook.
  apply confined_tryCatch.
  - apply confined_bind; [apply confined_await; cbn; auto | intros response].
    apply confined_bind; [now apply confined_await | intros body].
    apply confined_bind; [now apply confined_log | intros _].
    destruct (negb (ok response)); [apply confined_throw | apply confined_ret].
  - intros e. apply confined_bind; [now apply confined_console_error|].
    intros _. apply confined_throw.
Qed.

Lemma confined_scrape (fuel : nat) :
  confined (allowedCall cfg date) (scrape env cfg fuel date).
Proof.
  unfold scrape.
  apply confined_bind; [apply confined_authenticate | intros _].
  apply confined_bind; [now apply confined_log | intros _].
  apply confined_bind;
    [apply confined_retry_default, confined_loadAll | intros _].
  apply confined_bind; [now apply confined_log | intros _].
  apply confined_bind; [now apply confined_await | intros root].
  apply confined_bind; [now apply confined_log | intros _].
  apply confined_bind; [|intros _; now apply confined_log].
  apply confined_sendToWebhook; [reflexivity|].
  cbn [items]. unfold extract. apply fold_extractCard_valid. constructor.
Qed.
End ConfinedScript.

(** A run without a webhook URL stops after its first console line. *)
Lemma main_requires_webhook_url_gen (env : Environment) (cfg : Config)
      (fuel : nat) :
  truthy (WEBHOOK_URL cfg) = false ->
  main env cfg fuel []
  = Thrown missingWebhookUrl
      [ConsoleLog [LStr "Starting Linktree insights scraper..."]].
Proof.
  intros Hurl. unfold main, bind.
  cbn [effect console_log browser_runtime]. now rewrite Hurl.
Qed.

(** A run with a webhook URL, from the point where the date is known. *)
Lemma main_from_date (env : Environment) (cfg : Config) (fuel : nat) :
  truthy (WEBHOOK_URL cfg) = true ->
  main env cfg fuel []
  = (effect (console_log [LStr ("Today: " ++ runDate env)]) ;;
     perform env Launch ;; perform env NewContext ;; perform env NewPage ;;
     tryFinally
       (tryCatch (scrape env cfg fuel (runDate env)) scrapingFailed)
       (perform env BrowserClose))
      [ConsoleLog [LStr "Starting Linktree insights scraper..."]; GetJSTDate].
Proof.
  intros Hurl. unfold main. rewrite Hurl. cbn [negb].
  unfold bind at 1. cbn [effect console_log browser_runtime app].
  unfold bind at 1. cbn [getJSTDate observe app].
  reflexivity.
Qed.

(** X18.  Whatever the browser and the endpoint do, every call of a
    settled run is one the script is written to make: it navigates to the
    Linktree dashboard (only with a cookie configured) and login page
    (only with both credentials) and nowhere else, injects nothing but
    the parsed configured cookie, types nothing but the configured
    credentials, waits 1000 or 2000 ms between attempts, and sends
    nothing but a JSON POST to the configured endpoint carrying the date
    read at start-up and records with non-empty title and url. *)
Theorem main_calls_are_confined :
  forall (env : Environment) (cfg : Config) (fuel : nat) (h' : history),
    settledHistory (main env cfg fuel []) = Some h' ->
    Forall (allowedCall cfg (runDate env)) h'.
Proof.
  intros env cfg fuel h' Hrun.
  destruct (truthy (WEBHOOK_URL cfg)) eqn:Hurl.
  - rewrite main_from_date in Hrun by assumption.
    assert (Hrest :
              confined (allowedCall cfg (runDate env))
                (effect (console_log [LStr ("Today: " ++ runDate env)]) ;;
                 perform env Launch ;; perform env NewContext ;;
                 perform env NewPage ;;
                 tryFinally
                   (tryCatch (scrape env cfg fuel (runDate env)) scrapingFailed)
                   (perform env BrowserClose))).
    { apply confined_bind; [now apply confined_log | intros _].
      do 3 (apply confined_bind; [now apply confined_await | intros _]).
      apply confined_tryFinally; [|now apply confined_await].
      apply confined_tryCatch; [apply confined_scrape|].
      intros e. unfold scrapingFailed.
      apply confined_bind; [now apply confined_console_error|].
      intros _. apply confined_throw. }
    specialize (Hrest [ConsoleLog [LStr "Starting Linktree insights scraper..."];
                       GetJSTDate]).
    rewrite Hrun in Hrest. destruct Hrest as (t & -> & Hall).
    apply Forall_app. split; [|exact Hall].
    repeat constructor.
  - rewrite main_requires_webhook_url_gen in Hrun by assumption.
    inversion Hrun; subst. repeat constructor.
Qed.

Lemma main_calls_are_confined_witness :
  exists h',
    settledHistory (main navigationTimesOut cookieOnlyConfig 5 []) = Some h' /\
    Forall (allowedCall cookieOnlyConfig (runDate navigationTimesOut)) h'.
Proof.
  eexists.
  assert (H : settledHistory (main navigationTimesOut cookieOnlyConfig 5 [])
              = Some _) by reflexivity.
  split; [exact H|].
  exact (main_calls_are_confined navigationTimesOut cookieOnlyConfig 5%nat _ H).
Defined.

(* ================================================================= *)
(** ** main: a run that returns has delivered *)

Lemma bind_returned {W A B} (c : M W A) (k : A -> M W B) (w : W)
      (b : B) (w' : W) :
  bind c k w = Returned b w' ->
  exists a w1, c w = Returned a w1 /\ k a w1 = Returned b w'.
Proof.
  unfold bind. destruct (c w) as [a w1 | e w1 |]; try discriminate.
  intros H. now exists a, w1.
Qed.

Lemma effect_returned {W} (f : W -> W) (w : W) (u : unit) (w' : W) :
  effect f w = Returned u w' -> w' = f w.
Proof.
  unfold effect. now intros [= _ <-].
Qed.

Lemma await_returned {A} (act : action) (oracle : history -> outcome A)
      (h : history) (a : A) (h' : history) :
  await act oracle h = Returned a h' ->
  oracle h = Fulfilled a /\ h' = h ++ [act].
Proof.
  unfold await. destruct (oracle h) as [a0|e]; [|discriminate].
  intros H. inversion H; subst. now split.
Qed.

Lemma tryFinally_returned {W A} (body : M W A) (cleanup : M W unit)
      (w : W) (a : A) (w' : W) :
  tryFinally body cleanup w = Returned a w' ->
  exists w1 u, body w = Returned a w1 /\ cleanup w1 = Returned u w'.
Proof.
  unfold tryFinally.
  destruct (body w) as [a0 w1 | e w1 |]; [| |discriminate];
    destruct (cleanup w1) as [u w2 | e2 w2 |] eqn:Hc; try discriminate.
  intros H. inversion H; subst. now exists w1, u.
Qed.

(** The [catch] block of [main] never returns: when the guarded block
    returns, its body has returned. *)
Lemma tryCatch_scrapingFailed_returned (body : M history unit)
      (h : history) (u : unit) (h' : history) :
  tryCatch body scrapingFailed h = Returned u h' ->
  body h = Returned u h'.
Proof.
  unfold tryCatch. destruct (body h) as [a h1 | e h1 |]; try discriminate.
  auto.
Qed.

Lemma sendToWebhook_returned (env : Environment) (cfg : Config)
      (data : WebhookData) (h : history) (body : string) (h' : history) :
  let request := Fetch (WEBHOOK_URL cfg) "POST" "application/json" data in
  sendToWebhook env cfg data h = Returned body h' ->
  exists resp,
    respond env request h = Fulfilled resp /\
    text resp = Fulfilled body /\
    200 <= status resp <= 299 /\
    h' = h ++ [request; ResponseText; webhookStatusLine resp body].
Proof.
  intros request.
  unfold sendToWebhook, tryCatch, bind, await, console_error, effect, throw, ret.
  fold request.
  destruct (respond env request h) as [resp | e0]; cbn; [|discriminate].
  destruct (text resp) as [body0 | e1] eqn:Htext; cbn; [|discriminate].
  unfold ok.
  destruct ((200 <=? status resp) && (status resp <=? 299)) eqn:Hok; cbn;
    [|discriminate].
  intros Heq. inversion Heq; subst. exists resp.
  apply andb_true_iff in Hok as [H1 H2].
  apply Z.leb_le in H1. apply Z.leb_le in H2.
  repeat split; auto.
  unfold webhookStatusLine. now repeat rewrite <- app_assoc.
Qed.

(** X19.  A run returns normally only after a successful delivery: its
    last calls are the one POST of the run, the reading of the body, the
    two console lines and [browser.close()]; the endpoint answered that
    request with a 2xx status; and the batch sent carries the date read at
    start-up and the records extracted from the document the page
    returned just before. *)
Theorem main_returns_only_after_delivery :
  forall (env : Environment) (cfg : Config) (fuel : nat) (h' : history),
    main env cfg fuel [] = Returned tt h' ->
    exists (hd : history) (root : node) (resp : Response) (body : string),
      let data := mkWebhookData (runDate env) (extract root) in
      let request := Fetch (WEBHOOK_URL cfg) "POST" "application/json" data in
      let h1 :=
        hd ++ [EvalExtract;
               ConsoleLog
                 [LStr ("Extracted "
                        ++ JsString.ofNumber
                             (Z.of_nat (List.length (extract root)))
                        ++ " links")]] in
      document env hd = Fulfilled root /\
      respond env request h1 = Fulfilled resp /\
      text resp = Fulfilled body /\
      200 <= status resp <= 299 /\
      countAction isFetch h1 = O /\
      h' = h1 ++ [request; ResponseText; webhookStatusLine resp body;
                  ConsoleLog [LStr "Scraping completed successfully"];
                  BrowserClose].
Proof.
  intros env cfg fuel h' Hrun.
  destruct (truthy (WEBHOOK_URL cfg)) eqn:Hurl.
  2:{ rewrite main_requires_webhook_url_gen in Hrun by assumption.
      discriminate. }
  pose proof (fetches_main env cfg fuel []) as Hfetch.
  rewrite Hrun in Hfetch. cbn [settledHistory app] in Hfetch.
  destruct Hfetch as (t & <- & Hcount).
  rewrite main_from_date in Hrun by assumption.
  apply bind_returned in Hrun as (u1 & w1 & E1 & Hrun).
  apply effect_returned in E1.
  unfold perform in Hrun.
  apply bind_returned in Hrun as (u2 & w2 & E2 & Hrun).
  apply await_returned in E2 as [_ E2].
  apply bind_returned in Hrun as (u3 & w3 & E3 & Hrun).
  apply await_returned in E3 as [_ E3].
  apply bind_returned in Hrun as (u4 & w4 & E4 & Hrun).
  apply await_returned in E4 as [_ E4].
  apply tryFinally_returned in Hrun as (w5 & u5 & Hbody & Hclose).
  apply await_returned in Hclose as [_ Hclose].
  apply tryCatch_scrapingFailed_returned in Hbody.
  unfold scrape in Hbody.
  apply bind_returned in Hbody as (ua & wa & Eauth & Hbody).
  apply bind_returned in Hbody as (ub & wb & Elog1 & Hbody).
  apply bind_returned in Hbody as (uc & wc & Eretry & Hbody).
  apply bind_returned in Hbody as (ud & wd & Elog2 & Hbody).
  apply bind_returned in Hbody as (root & we & Edoc & Hbody).
  apply await_returned in Edoc as [Hdoc Ewe].
  cbv zeta in Hbody.
  apply bind_returned in Hbody as (uf & wf & Elog3 & Hbody).
  apply effect_returned in Elog3.
  apply bind_returned in Hbody as (body & wg & Esend & Hbody).
  apply sendToWebhook_returned in Esend as (resp & Hresp & Htext & Hok & Ewg).
  apply effect_returned in Hbody.
  cbn [console_log browser_runtime] in Elog3, Hbody.
  exists wd, root, resp, body. cbv zeta.
  assert (Hwf : wf = wd ++ [EvalExtract;
                   ConsoleLog
                     [LStr ("Extracted "
                            ++ JsString.ofNumber
                                 (Z.of_nat (List.length (extract root)))
                            ++ " links")]]).
  { rewrite Elog3, Ewe, <- app_assoc. reflexivity. }
  rewrite <- Hwf.
  assert (Hh' : h' = wf ++ [Fetch (WEBHOOK_URL cfg) "POST" "application/json"
                              (mkWebhookData (runDate env) (extract root));
                            ResponseText; webhookStatusLine resp body;
                            ConsoleLog [LStr "Scraping completed successfully"];
                            BrowserClose]).
  { rewrite Hclose, Hbody, Ewg. repeat rewrite <- app_assoc. reflexivity. }
  repeat split; try assumption; try lia.
  rewrite Hh', countAction_app in Hcount.
  unfold countAction at 2 in Hcount. cbn in Hcount. lia.
Qed.

Lemma main_returns_only_after_delivery_witness :
  exists h',
    main (scriptedPage (script [100; 200; 200])) cookieOnlyConfig 5 []
      = Returned tt h' /\
    exists (hd : history) (root : node) (resp : Response) (body : string),
      let env := scriptedPage (script [100; 200; 200]) in
      let data := mkWebhookData (runDate env) (extract root) in
      let request :=
        Fetch (WEBHOOK_URL cookieOnlyConfig) "POST" "application/json" data in
      let h1 :=
        hd ++ [EvalExtract;
               ConsoleLog
                 [LStr ("Extracted "
                        ++ JsString.ofNumber
                             (Z.of_nat (List.length (extract root)))
                        ++ " links")]] in
      document env hd = Fulfilled root /\
      respond env request h1 = Fulfilled resp /\
      text resp = Fulfilled body /\
      200 <= status resp <= 299 /\
      countAction isFetch h1 = O /\
      h' = h1 ++ [request; ResponseText; webhookStatusLine resp body;
                  ConsoleLog [LStr "Scraping completed successfully"];
                  BrowserClose].
Proof.
  eexists.
  assert (H : main (scriptedPage (script [100; 200; 200])) cookieOnlyConfig 5 []
              = Returned tt _) by (vm_compute; reflexivity).
  split; [exact H|].
  exact (main_returns_only_after_delivery
           (scriptedPage (script [100; 200; 200])) cookieOnlyConfig 5%nat _ H).
Defined.

(* ================================================================= *)
(** ** main: how a run settles *)



(* ================================================================= *)
(** ** main: a run in which every call succeeds *)

(** On any host, a first attempt that returns is the result of [retry]:
    nothing is logged and nothing is waited for. *)
Lemma retry_first_attempt {W} {RT : Runtime W} {A} (fn : M W A)
      (maxRetries delay : Z) (w : W) (a : A) (w' : W) :
  1 <= maxRetries ->
  fn w = Returned a w' ->
  retry fn maxRetries delay w = Returned (Some a) w'.
Proof.
  intros Hn Hfn. unfold retry. cbn [retry_loop].
  replace (0 <? maxRetries) with true by (symmetry; apply Z.ltb_lt; lia).
  unfold tryCatch, bind. now rewrite Hfn.
Qed.

Section Cooperative.
Variable env : Environment.
Variable cfg : Config.
Variable H : Z.
Hypothesis coop : cooperative env H.

Lemma perform_returns (act : action) (h : history) :
  perform env act h = Returned tt (h ++ [act]).
Proof.
  unfold perform, await. now rewrite (proj1 coop).
Qed.

Lemma login_returns (h : history) :
  exists h', login env cfg h = Returned tt h'.
Proof.
  unfold login, bind. rewrite !perform_returns. eexists. reflexivity.
Qed.

Lemma retry_login_returns (h : history) :
  exists h', (retry_default (login env cfg) ;; ret tt) h = Returned tt h'.
Proof.
  destruct (login_returns h) as (h' & Hlogin).
  exists h'. unfold bind, retry_default.
  now rewrite (retry_first_attempt _ 3 1000 h tt h' ltac:(lia) Hlogin).
Qed.

Lemma authenticate_returns (h : history) :
  credentialsMissing cfg = false \/
  (truthy (LT_COOKIE cfg) = true /\ neverRedirected env) ->
  exists h', authenticate env cfg h = Returned tt h'.
Proof.
  intros Hmethod. unfold authenticate.
  destruct (truthy (LT_COOKIE cfg)) eqn:Hcookie.
  - unfold bind at 1. cbn [effect console_log browser_runtime].
    destruct (LT_COOKIE cfg) as [cookie|]; [|eexists; reflexivity].
    unfold tryCatch, cookieAttempt.
    unfold bind at 1. rewrite perform_returns.
    unfold bind at 1. rewrite perform_returns.
    unfold bind at 1. cbn [observe].
    unfold bind at 1.
    destruct (JsString.includes "/login" (currentUrl env _)) eqn:Hurl.
    + cbn [throw]. unfold cookieFallback.
      unfold bind at 1. cbn [effect console_log browser_runtime].
      destruct Hmethod as [Hcred | [_ Hnever]].
      * rewrite Hcred. apply retry_login_returns.
      * now rewrite Hnever in Hurl.
    + cbn [ret effect]. eexists. reflexivity.
  - unfold bind at 1. cbn [effect console_log browser_runtime].
    destruct Hmethod as [Hcred | [Hc _]]; [|discriminate].
    rewrite Hcred. apply retry_login_returns.
Qed.

(** The loop returns as long as the fuel exceeds what the height can
    still grow by. *)
Lemma scrollLoop_returns (fuel : nat) :
  forall previousHeight currentHeight h,
    currentHeight <= H ->
    (Z.to_nat (H - previousHeight) < fuel)%nat ->
    exists h',
      scrollLoop env fuel previousHeight currentHeight h = Returned tt h'.
Proof.
  induction fuel as [|fuel IH]; intros previousHeight currentHeight h Hcur Hfuel;
    [lia|].
  cbn [scrollLoop].
  destruct (currentHeight >? previousHeight) eqn:Hgt;
    [|eexists; reflexivity].
  rewrite Z.gtb_ltb in Hgt. apply Z.ltb_lt in Hgt.
  unfold bind at 1. rewrite perform_returns.
  unfold bind at 1. rewrite perform_returns.
  unfold bind at 1. unfold await.
  destruct (proj1 (proj2 coop)
              ((h ++ [EvalScrollTo]) ++ [WaitForTimeout 2000]))
    as (z & Hz & Hle).
  rewrite Hz. apply IH; [exact Hle | lia].
Qed.

Lemma loadAll_returns (fuel : nat) (h : history) :
  (Z.to_nat H < fuel)%nat ->
  exists h', loadAll env fuel h = Returned tt h'.
Proof.
  intros Hfuel. unfold loadAll, bind, await.
  destruct (proj1 (proj2 coop) h) as (z & Hz & Hle). rewrite Hz.
  apply scrollLoop_returns; [exact Hle|].
  replace (H - 0) with H by lia. exact Hfuel.
Qed.

Lemma sendToWebhook_returns (data : WebhookData) (h : history) :
  exists body h', sendToWebhook env cfg data h = Returned body h'.
Proof.
  destruct coop as (_ & _ & _ & Hrespond).
  destruct (Hrespond (Fetch (WEBHOOK_URL cfg) "POST" "application/json" data) h)
    as (resp & body & Hresp & Htext & Hok).
  unfold sendToWebhook, tryCatch, bind, await, ok.
  rewrite Hresp, Htext. cbn [effect console_log browser_runtime].
  replace ((200 <=? status resp) && (status resp <=? 299)) with true
    by (symmetry; apply andb_true_iff; split; apply Z.leb_le; lia).
  cbn. eexists. eexists. reflexivity.
Qed.

Lemma scrape_returns (fuel : nat) (date : string) (h : history) :
  credentialsMissing cfg = false \/
  (truthy (LT_COOKIE cfg) = true /\ neverRedirected env) ->
  (Z.to_nat H < fuel)%nat ->
  exists h', scrape env cfg fuel date h = Returned tt h'.
Proof.
  intros Hmethod Hfuel. unfold scrape.
  destruct (authenticate_returns h Hmethod) as (h1 & Hauth).
  unfold bind at 1. rewrite Hauth.
  unfold bind at 1. cbn [effect console_log browser_runtime].
  destruct (loadAll_returns fuel (h1 ++ [ConsoleLog [LStr "Loading all links..."]])
              Hfuel) as (h2 & Hload).
  unfold bind at 1. unfold retry_default.
  rewrite (retry_first_attempt _ 3 1000 _ tt h2 ltac:(lia) Hload).
  unfold bind at 1. cbn [effect console_log browser_runtime].
  unfold bind at 1. unfold await.
  destruct (proj1 (proj2 (proj2 coop))
              (h2 ++ [ConsoleLog [LStr "Extracting link data..."]]))
    as (root & Hroot).
  rewrite Hroot. cbv zeta.
  unfold bind at 1. cbn [effect console_log browser_runtime].
  match goal with
  | |- exists h', bind (sendToWebhook _ _ ?data) _ ?h0 = _ =>
      destruct (sendToWebhook_returns data h0) as (body & h3 & Hsend)
  end.
  unfold bind at 1. rewrite Hsend.
  cbn [effect console_log browser_runtime]. eexists. reflexivity.
Qed.
End Cooperative.

(** X21.  When every call succeeds (browser calls fulfilled, page height
    bounded by [H], document readable, endpoint answering 2xx), a
    webhook URL is configured, and either both credentials are present or
    a cookie is present and the dashboard never redirects to the login
    page, a run with more than [H] turns allowed to the scroll loop
    returns normally. *)
Theorem main_returns_when_every_call_succeeds :
  forall (env : Environment) (cfg : Config) (H : Z) (fuel : nat),
    cooperative env H ->
    truthy (WEBHOOK_URL cfg) = true ->
    credentialsMissing cfg = false \/
    (truthy (LT_COOKIE cfg) = true /\ neverRedirected env) ->
    (Z.to_nat H < fuel)%nat ->
    exists h', main env cfg fuel [] = Returned tt h'.
Proof.
  intros env cfg H fuel Hcoop Hurl Hmethod Hfuel.
  assert (Hstart : startupSucceeds env)
    by (repeat split; apply (proj1 Hcoop)).
  rewrite main_after_startup by assumption.
  destruct (scrape_returns env cfg H Hcoop fuel
              (today env [ConsoleLog [LStr "Starting Linktree insights scraper..."]])
              (startup env) Hmethod Hfuel) as (h1 & Hscrape).
  unfold tryFinally, tryCatch. rewrite Hscrape.
  rewrite (perform_returns env H Hcoop). eexists. reflexivity.
Qed.

Lemma main_returns_when_every_call_succeeds_witness :
  cooperative expiredCookiePage 900 /\
  truthy (WEBHOOK_URL fullConfig) = true /\
  (credentialsMissing fullConfig = false \/
   (truthy (LT_COOKIE fullConfig) = true /\ neverRedirected expiredCookiePage)) /\
  (Z.to_nat 900 < 901)%nat /\
  exists h', main expiredCookiePage fullConfig 901 [] = Returned tt h'.
Proof.
  assert (H1 : cooperative expiredCookiePage 900).
  { repeat split.
    - intros h. exists 900. split; [reflexivity|lia].
    - intros h. eexists. reflexivity.
    - intros req h. exists (mkResponse 200 (Fulfilled "ok")), "ok".
      repeat split; cbn; lia. }
  assert (H2 : truthy (WEBHOOK_URL fullConfig) = true) by reflexivity.
  assert (H3 : credentialsMissing fullConfig = false \/
               (truthy (LT_COOKIE fullConfig) = true /\
                neverRedirected expiredCookiePage))
    by (left; reflexivity).
  assert (H4 : (Z.to_nat 900 < 901)%nat) by lia.
  split; [exact H1|]. split; [exact H2|]. split; [exact H3|].
  split; [exact H4|].
  exact (main_returns_when_every_call_succeeds expiredCookiePage fullConfig
           900 901%nat H1 H2 H3 H4).
Defined.

(* ================================================================= *)
(** ** main: a valid cookie keeps the login form untouched *)

Lemma scrape_after_authentication (env : Environment) (cfg : Config)
      (fuel : nat) (date : string) :
  scrape env cfg fuel date
  = (authenticate env cfg ;; afterAuthentication env cfg fuel date).
Proof. reflexivity. Qed.

Lemma cookieAttempt_returned (env : Environment) (cookie : string)
      (h : history) (u : unit) (h' : history) :
  cookieAttempt env cookie h = Returned u h' -> h' = h ++ cookieCalls cookie.
Proof.
  unfold cookieAttempt, bind, perform, await, observe, throw, ret, effect.
  destruct (settle env (AddCookies _) h) as [[]|e1]; [|discriminate].
  destruct (settle env (Goto _) _) as [[]|e2]; [|discriminate].
  destruct (JsString.includes _ _); [discriminate|].
  intros Heq. inversion Heq. unfold cookieCalls.
  cbn [console_log browser_runtime]. now repeat rewrite <- app_assoc.
Qed.

Section AfterAuthentication.
Variable p : action -> bool.
Hypothesis quiet : ignoresLoops p.
Variable env : Environment.
Variable cfg : Config.
Hypothesis no_fetch :
  forall data,
    weight p (Fetch (WEBHOOK_URL cfg) "POST" "application/json" data) = O.
Hypothesis no_extract : weight p EvalExtract = O.
Hypothesis no_text : weight p ResponseText = O.
Hypothesis no_close : weight p BrowserClose = O.

(** The guarded block of [main] from the end of the authentication on,
    with the release of the browser, makes no call of the kind [p]. *)
Lemma emits_after_authentication (fuel : nat) (date : string) :
  emits p 0
    (tryFinally
       (tryCatch (afterAuthentication env cfg fuel date) scrapingFailed)
       (perform env BrowserClose)).
Proof.
  apply (emits_tryFinally p 0 0);
    [|rewrite <- no_close; apply emits_perform].
  apply (emits_tryCatch p 0 0).
  - unfold afterAuthentication.
    apply (emits_bind p 0 0); [now apply emits_log | intros _].
    apply (emits_bind p 0 0);
      [apply (emits_retry_default p quiet 0); now apply emits_loadAll
      | intros _].
    apply (emits_bind p 0 0); [now apply emits_log | intros _].
    apply (emits_bind p 0 0);
      [rewrite <- no_extract; apply emits_await | intros root].
    apply (emits_bind p 0 0); [now apply emits_log | intros _].
    apply (emits_bind p 0 0); [|intros _; now apply emits_log].
    apply (emits_le p (0 + weight p ResponseText));
      [|rewrite no_text; lia].
    apply emits_sendToWebhook; [exact quiet|].
    intros data. rewrite no_fetch. lia.
  - intros e. unfold scrapingFailed.
    apply (emits_bind p 0 0); [now apply emits_console_error | intros _].
    apply emits_throw.
Qed.
End AfterAuthentication.

(** X22.  When the cookie attempt of a run succeeds, the run never opens
    the login page and never fills or submits the login form, whatever
    happens afterwards; the cookie is injected once and the dashboard is
    opened once. *)
Theorem valid_cookie_skips_the_login_form :
  forall (env : Environment) (cfg : Config) (fuel : nat)
         (cookie : string) (h1 h' : history),
    truthy (WEBHOOK_URL cfg) = true ->
    startupSucceeds env ->
    LT_COOKIE cfg = Some cookie ->
    truthy (Some cookie) = true ->
    cookieAttempt env cookie
      (startup env ++ [ConsoleLog [LStr "Using cookie authentication..."]])
      = Returned tt h1 ->
    settledHistory (main env cfg fuel []) = Some h' ->
    countAction isLoginVisit h' = O /\
    countAction isFill h' = O /\
    countAction isClick h' = O /\
    countAction isAddCookies h' = 1%nat /\
    exists rest,
      h' = startup env
             ++ [ConsoleLog [LStr "Using cookie authentication..."]]
             ++ cookieCalls cookie ++ rest.
Proof.
  intros env cfg fuel cookie h1 h' Hurl Hstart Hcookie Htruthy Hattempt Hrun.
  pose proof (cookieAttempt_returned _ _ _ _ _ Hattempt) as Hh1.
  rewrite main_after_startup in Hrun by assumption.
  assert (Hmain :
            settledHistory
              (tryFinally
                 (tryCatch
                    (afterAuthentication env cfg fuel
                       (today env
                          [ConsoleLog
                             [LStr "Starting Linktree insights scraper..."]]))
                    scrapingFailed)
                 (perform env BrowserClose) h1) = Some h').
  { assert (Hauth : authenticate env cfg (startup env) = Returned tt h1).
    { unfold authenticate. rewrite Hcookie, Htruthy.
      unfold bind at 1. cbn [effect console_log browser_runtime].
      unfold tryCatch. now rewrite Hattempt. }
    rewrite <- Hrun. unfold tryFinally, tryCatch.
    rewrite scrape_after_authentication. unfold bind at 1.
    now rewrite Hauth. }
  assert (Hcount : forall p,
             ignoresLoops p ->
             (forall data,
                 weight p (Fetch (WEBHOOK_URL cfg) "POST" "application/json"
                                 data) = O) ->
             weight p EvalExtract = O -> weight p ResponseText = O ->
             weight p BrowserClose = O ->
             exists t, h' = h1 ++ t /\ countAction p t = O).
  { intros p Hq Hf He Ht Hc.
    pose proof (emits_after_authentication p Hq env cfg Hf He Ht Hc fuel
                  (today env
                     [ConsoleLog [LStr "Starting Linktree insights scraper..."]])
                  h1) as Hem.
    rewrite Hmain in Hem. destruct Hem as (t & -> & Hle).
    exists t. split; [reflexivity|lia]. }
  assert (Hquiet : forall p,
             (forall args, p (ConsoleLog args) = false) ->
             (forall args, p (ConsoleError args) = false) ->
             (forall ms, p (SetTimeout ms) = false) ->
             p EvalScrollHeight = false -> p EvalScrollTo = false ->
             (forall ms, p (WaitForTimeout ms) = false) ->
             ignoresLoops p)
    by (intros p H1 H2 H3 H4 H5 H6; repeat split; assumption).
  assert (Hprefix : forall p,
             countAction p h1
             = countAction p
                 (startup env
                    ++ [ConsoleLog [LStr "Using cookie authentication..."]]
                    ++ cookieCalls cookie))
    by (intros p; rewrite Hh1, <- app_assoc; reflexivity).
  split; [|split; [|split; [|split]]].
  - destruct (Hcount isLoginVisit) as (t & -> & Ht); try reflexivity;
      [now apply Hquiet|].
    rewrite countAction_app, Ht, Hprefix. reflexivity.
  - destruct (Hcount isFill) as (t & -> & Ht); try reflexivity;
      [now apply Hquiet|].
    rewrite countAction_app, Ht, Hprefix. reflexivity.
  - destruct (Hcount isClick) as (t & -> & Ht); try reflexivity;
      [now apply Hquiet|].
    rewrite countAction_app, Ht, Hprefix. reflexivity.
  - destruct (Hcount isAddCookies) as (t & -> & Ht); try reflexivity;
      [now apply Hquiet|].
    rewrite countAction_app, Ht, Hprefix. reflexivity.
  - destruct (Hcount isClick) as (t & -> & _); try reflexivity;
      [now apply Hquiet|].
    exists t. rewrite Hh1. now repeat rewrite <- app_assoc.
Qed.

Lemma valid_cookie_skips_the_login_form_witness :
  let env := failingWebhook in
  let cfg := fullConfig in
  exists h1 h',
    truthy (WEBHOOK_URL cfg) = true /\
    startupSucceeds env /\
    LT_COOKIE cfg = Some "session=abc" /\
    truthy (Some "session=abc") = true /\
    cookieAttempt env "session=abc"
      (startup env ++ [ConsoleLog [LStr "Using cookie authentication..."]])
      = Returned tt h1 /\
    settledHistory (main env cfg 5 []) = Some h' /\
    countAction isLoginVisit h' = O /\
    countAction isFill h' = O /\
    countAction isClick h' = O /\
    countAction isAddCookies h' = 1%nat /\
    exists rest,
      h' = startup env
             ++ [ConsoleLog [LStr "Using cookie authentication..."]]
             ++ cookieCalls "session=abc" ++ rest.
Proof.
  intros env cfg. eexists. eexists.
  assert (H1 : truthy (WEBHOOK_URL cfg) = true) by reflexivity.
  assert (H2 : startupSucceeds env) by (repeat split).
  assert (H3 : LT_COOKIE cfg = Some "session=abc") by reflexivity.
  assert (H4 : truthy (Some "session=abc") = true) by reflexivity.
  assert (H5 : cookieAttempt env "session=abc"
                 (startup env
                    ++ [ConsoleLog [LStr "Using cookie authentication..."]])
               = Returned tt _) by (vm_compute; reflexivity).
  assert (H6 : settledHistory (main env cfg 5 []) = Some _)
    by (vm_compute; reflexivity).
  split; [exact H1|]. split; [exact H2|]. split; [exact H3|].
  split; [exact H4|]. split; [exact H5|]. split; [exact H6|].
  exact (valid_cookie_skips_the_login_form env cfg 5%nat "session=abc" _ _
           H1 H2 H3 H4 H5 H6).
Defined.

(* ================================================================= *)
(** ** Instances *)

